(** * Leaderboard backend (src/index.ts): a shallow embedding of the Express
    handlers over a small model of the Mongoose/MongoDB calls they make.

    Conventions of the model
    - A JavaScript string is the list of its UTF-16 code units.
    - The [Number]s that hold points and timestamps are integer-valued
      doubles and are held as their value in [Z]; every addition on them is
      the binary64 one, [Number_add], which rounds to nearest-even from
      2 ^ 53 on. The award is computed as the source computes it:
      [Math.random()] is a double in [0, 1), the product by 10 is rounded to
      nearest-even, and [Math.floor] takes the integer part.
    - A handler is a computation in a state-and-exception monad over [World]:
      the two collections, and the client sessions opened so far.
    - What the environment decides (the random draw, the clock, generated
      ids, whether a storage call fails) is an explicit argument of the
      handler. *)

From Stdlib Require Import ZArith QArith Lia.
From stdpp Require Import base option list sorting strings gmap pretty.

Local Open Scope Z_scope.

(** ** JavaScript values of a parsed JSON body *)

(** UTF-16 code units. *)
Definition JsStr := list N.

(** Code units of an ASCII literal. *)
Fixpoint js (s : string) : JsStr :=
  match s with
  | EmptyString => []
  | String a s' => Ascii.N_of_ascii a :: js s'
  end.

Inductive JsValue :=
  | JsUndefined
  | JsNull
  | JsBool (b : bool)
  | JsNumber (q : Q)
  | JsString (s : JsStr)
  | JsObject.                     (* arrays and objects: opaque, truthy *)

(** [req.body], the object produced by [express.json()], is a
    [gmap string JsValue]. Property access [body.k]: a missing key reads as
    [undefined]. *)
Definition field (k : string) (body : gmap string JsValue) : JsValue :=
  default JsUndefined (body !! k).

(** ToBoolean. *)
Definition truthy (v : JsValue) : bool :=
  match v with
  | JsUndefined | JsNull => false
  | JsBool b => b
  | JsNumber q => negb (Qeq_bool q 0)
  | JsString s => match s with [] => false | _ => true end
  | JsObject => true
  end.

(** WhiteSpace and LineTerminator code points, as stripped by
    [String.prototype.trim]. *)
Definition isWhiteSpace (c : N) : bool :=
  ((c =? 9) || (c =? 10) || (c =? 11) || (c =? 12) || (c =? 13) || (c =? 32)
   || (c =? 160) || (c =? 5760) || ((8192 <=? c) && (c <=? 8202))
   || (c =? 8232) || (c =? 8233) || (c =? 8239) || (c =? 8287)
   || (c =? 12288) || (c =? 65279))%N.

Fixpoint trimStart (s : JsStr) : JsStr :=
  match s with
  | [] => []
  | c :: s' => if isWhiteSpace c then trimStart s' else s
  end.

Definition trimEnd (s : JsStr) : JsStr := reverse (trimStart (reverse s)).

Definition trim (s : JsStr) : JsStr := trimEnd (trimStart s).

(** ** Documents and collections *)

Definition ObjectId := N.

Module User.
(** userSchema: name (required string), points (number, default 0). *)
Record t := mk { _id : ObjectId; name : JsStr; points : Z }.
End User.

Module History.
(** historySchema: userId (ref User), points, timestamp (default now). The
    document's own _id is never read and is left out. *)
Record t := mk { userId : ObjectId; points : Z; timestamp : Z }.
End History.

(** A history document after [populate('userId', 'name')]: the reference is
    replaced by the referenced user's _id and name, or by null. *)
Record Populated := mkPopulated {
  p_userId : option (ObjectId * JsStr);
  p_points : Z;
  p_timestamp : Z
}.

(** ** Client sessions and transactions *)

Inductive TxnState := NoTransaction | InProgress | Committed | Aborted.

(** A write staged under a transaction. *)
Inductive WriteOp :=
  | SetPoints (id : ObjectId) (p : Z)   (* updateOne({_id}, {$set: {points}}) *)
  | InsertHistory (h : History.t).      (* insertOne *)

Record Session := mkSession {
  txn : TxnState;
  staged : list WriteOp;
  ended : bool
}.

Record World := mkWorld {
  users : list User.t;          (* collection behind [User], insertion order *)
  histories : list History.t;   (* collection behind [History] *)
  sessions : list Session       (* sessions handed out by startSession *)
}.

Definition emptyWorld : World := mkWorld [] [] [].

(** ** Handler monad: state over [World], with exceptions *)

Inductive Error :=
  | TypeError          (* method call on a value that has no such method *)
  | CastError          (* Mongoose could not cast a value to ObjectId *)
  | ValidationError    (* a schema validator rejected the document *)
  | DuplicateKey       (* unique index on _id *)
  | TransactionError   (* the driver refuses the call in this transaction state *)
  | StorageError.      (* any other failure of a storage call *)

Inductive Res (A : Type) :=
  | Ok (a : A)
  | Throw (e : Error).
Arguments Ok {A} a.
Arguments Throw {A} e.

Definition M (A : Type) : Type := World → Res A * World.

Definition ret {A} (a : A) : M A := λ w, (Ok a, w).
Definition throw {A} (e : Error) : M A := λ w, (Throw e, w).
Definition bind {A B} (m : M A) (k : A → M B) : M B :=
  λ w, match m w with
       | (Ok a, w') => k a w'
       | (Throw e, w') => (Throw e, w')
       end.
(** [try { body } catch (error) { handler }] *)
Definition try_catch {A} (body : M A) (handler : Error → M A) : M A :=
  λ w, match body w with
       | (Ok a, w') => (Ok a, w')
       | (Throw e, w') => handler e w'
       end.

(** stdpp's monad notations: [x ← m; k] and [m;; k]. *)
#[global] Instance M_ret : MRet M := @ret.
#[global] Instance M_bind : MBind M := λ A B k m, bind m k.

(** ** Binary64 arithmetic of the award *)

(** A non-negative finite double, [mantissa * 2 ^ exponent], with
    [0 <= mantissa < 2 ^ 53] and [-1074 <= exponent]. *)
Record Float64 := mkFloat64 { mantissa : Z; exponent : Z }.

(** The doubles in [0, 1): zero and the subnormals have exponent -1074, a
    normal double has [2 ^ 52 <= mantissa] and is below 1 exactly when its
    exponent is at most -53. *)
Definition inUnitInterval (d : Float64) : Prop :=
  0 ≤ mantissa d < 2 ^ 53 ∧ -1074 ≤ exponent d ≤ -53.

(** [p / 2 ^ k] rounded to the nearest integer, ties to even. *)
Definition roundShift (p k : Z) : Z :=
  let q := Z.shiftr p k in
  let r := Z.land p (Z.ones k) in
  match (2 * r) ?= 2 ^ k with
  | Lt => q
  | Gt => q + 1
  | Eq => if Z.even q then q else q + 1
  end.

(** [a * b] on doubles: the exact product of the mantissas is cut back to
    53 bits (and to the least exponent -1074) by [roundShift]. Overflow to
    Infinity is out of the range used here and is not represented. *)
Definition Float64_mul (a b : Float64) : Float64 :=
  let p := mantissa a * mantissa b in
  let e := exponent a + exponent b in
  let k := Z.max (Z.max 0 (Z.log2 p + 1 - 53)) (-1074 - e) in
  mkFloat64 (roundShift p k) (e + k).

(** [Math.floor] of a non-negative double. *)
Definition Math_floor (a : Float64) : Z := Z.shiftl (mantissa a) (exponent a).

(** The literal [10]. *)
Definition ten : Float64 := mkFloat64 5 1.

(** The double nearest to the integer [n], ties to even: an integer of
    magnitude up to [2 ^ 53] is a double itself, a larger one is cut back to
    53 bits. Overflow to Infinity (from [2 ^ 1024] on) is not represented. *)
Definition roundNumber (n : Z) : Z :=
  let k := Z.max 0 (Z.log2 (Z.abs n) + 1 - 53) in
  Z.sgn n * (roundShift (Z.abs n) k * 2 ^ k).

(** [a + b] on integer-valued doubles. *)
Definition Number_add (a b : Z) : Z := roundNumber (a + b).

(** The integers that are doubles. *)
Definition isNumber (n : Z) : Prop := roundNumber n = n.

(** ** Responses and the environment of a request *)

Inductive Payload :=
  | Text (s : string)
  | UserJson (user : User.t)
  | ClaimJson (user : User.t) (message : string)
  | UsersJson (l : list User.t)
  | HistoryJson (l : list Populated).

(** [res.status(status).send(payload)] *)
Record Response := mkResponse { status : Z; payload : Payload }.

(** POST /add-user: the _id generated for the new document, and whether the
    insert fails in the storage layer. *)
Record AddUserEnv := mkAddUserEnv {
  newId : ObjectId;
  insertFails : bool
}.

(** POST /claim-points: the value of [Math.random()], the value of
    [Date.now()], and which storage calls fail. *)
Record ClaimEnv := mkClaimEnv {
  Math_random : Float64;
  Date_now : Z;
  findFails : bool;
  saveUserFails : bool;
  saveHistoryFails : bool;
  commitFails : bool
}.

(** ** Storage calls (Mongoose over the MongoDB driver) *)

Definition findUser (id : ObjectId) (us : list User.t) : option User.t :=
  List.find (λ u, (User._id u =? id)%N) us.

(** [updateOne({_id: id}, {$set: {points: p}})]: the first match only. *)
Fixpoint setPoints (id : ObjectId) (p : Z) (us : list User.t) : list User.t :=
  match us with
  | [] => []
  | u :: us' =>
      if (User._id u =? id)%N
      then User.mk (User._id u) (User.name u) p :: us'
      else u :: setPoints id p us'
  end.

Definition applyWrite (db : list User.t * list History.t) (op : WriteOp)
  : list User.t * list History.t :=
  match op with
  | SetPoints id p => (setPoints id p (fst db), snd db)
  | InsertHistory h => (fst db, snd db ++ [h])
  end.

Definition applyWrites (ops : list WriteOp) (db : list User.t * list History.t)
  : list User.t * list History.t :=
  fold_left applyWrite ops db.

(** [mongoose.startSession()]: a new session; its handle is its index. *)
Definition startSession : M nat :=
  λ w, (Ok (length (sessions w)),
        mkWorld (users w) (histories w)
                (sessions w ++ [mkSession NoTransaction [] false])).

Definition updSession (sid : nat) (f : Session → Session) : M unit :=
  λ w, (Ok (), mkWorld (users w) (histories w) (alter f sid (sessions w))).

Definition startTransaction (sid : nat) : M unit :=
  updSession sid (λ s, mkSession InProgress [] (ended s)).

(** Writes issued with [{ session }] are staged until commit. *)
Definition stage (sid : nat) (op : WriteOp) : M unit :=
  updSession sid (λ s, mkSession (txn s) (staged s ++ [op]) (ended s)).

(** Abort discards the staged writes. The driver accepts it only while the
    transaction is in progress: once [commitTransaction] has been called,
    or after an abort, it throws. *)
Definition abortTransaction (sid : nat) : M unit :=
  λ w, match sessions w !! sid with
       | Some s =>
           match txn s with
           | InProgress =>
               (Ok (), mkWorld (users w) (histories w)
                         (alter (λ s, mkSession Aborted [] (ended s)) sid
                                (sessions w)))
           | _ => (Throw TransactionError, w)
           end
       | None => (Throw TransactionError, w)
       end.

Definition endSession (sid : nat) : M unit :=
  updSession sid (λ s, mkSession (txn s) (staged s) true).

(** Commit applies the staged writes to the collections, all at once, or
    fails and applies none. Either way the driver then holds the
    transaction as committed. *)
Definition commitTransaction (sid : nat) (fails : bool) : M unit :=
  λ w, match sessions w !! sid with
       | Some s =>
           if fails
           then (Throw StorageError,
                 mkWorld (users w) (histories w)
                   (alter (λ s, mkSession Committed (staged s) (ended s)) sid
                          (sessions w)))
           else
             let db := applyWrites (staged s) (users w, histories w) in
             (Ok (), mkWorld (fst db) (snd db)
                       (alter (λ s, mkSession Committed [] (ended s)) sid
                              (sessions w)))
       | None => (Throw TransactionError, w)
       end.

(** A read under a session sees the collections with the session's own
    staged writes applied. *)
Definition sessionView (sid : nat) (w : World) : list User.t * list History.t :=
  match sessions w !! sid with
  | Some s => applyWrites (staged s) (users w, histories w)
  | None => (users w, histories w)
  end.

(** [new User({ name })]: a generated _id, points defaults to 0. *)
Definition new_User (name : JsStr) (newId : ObjectId) : User.t :=
  User.mk newId name 0.

(** [newUser.save()]: no session, the insert is applied at once. *)
Definition User_insert (u : User.t) (fails : bool) : M unit :=
  match User.name u with
  | [] => throw ValidationError
  | _ =>
      if fails then throw StorageError else
      λ w, match findUser (User._id u) (users w) with
           | Some _ => (Throw DuplicateKey, w)
           | None => (Ok (), mkWorld (users w ++ [u]) (histories w) (sessions w))
           end
  end.

(** [User.find().sort({ points: -1 })] *)
Definition byPointsDesc (u v : User.t) : Prop := User.points v ≤ User.points u.

#[global] Instance byPointsDesc_dec : RelDecision byPointsDesc :=
  λ u v, decide (User.points v ≤ User.points u).

Definition User_find_sorted (fails : bool) : M (list User.t) :=
  if fails then throw StorageError
  else λ w, (Ok (merge_sort byPointsDesc (users w)), w).

(** [History.find().sort({ timestamp: -1 }).limit(10).populate('userId', 'name')] *)
Definition byTimestampDesc (h k : History.t) : Prop :=
  History.timestamp k ≤ History.timestamp h.

#[global] Instance byTimestampDesc_dec : RelDecision byTimestampDesc :=
  λ h k, decide (History.timestamp k ≤ History.timestamp h).

Definition populate (us : list User.t) (h : History.t) : Populated :=
  mkPopulated ((λ u, (User._id u, User.name u)) <$> findUser (History.userId h) us)
              (History.points h) (History.timestamp h).

Definition History_find_latest (fails : bool) : M (list Populated) :=
  if fails then throw StorageError
  else λ w, (Ok (populate (users w) <$>
                   take 10 (merge_sort byTimestampDesc (histories w))), w).


Section Handlers.

(** Mongoose's cast of a request value to an ObjectId; [None] is a
    CastError. The cast is library code, so it is a parameter here. *)
Variable castObjectId : JsValue → option ObjectId.

(** [User.findById(userId).session(session)] *)
Definition User_findById (userId : JsValue) (sid : nat) (fails : bool)
  : M (option User.t) :=
  match castObjectId userId with
  | None => throw CastError
  | Some id =>
      if fails then throw StorageError
      else λ w, (Ok (findUser id (fst (sessionView sid w))), w)
  end.

(** [user.save({ session })] on a document whose [points] was modified. *)
Definition User_save (user : User.t) (sid : nat) (fails : bool) : M unit :=
  if fails then throw StorageError
  else stage sid (SetPoints (User._id user) (User.points user)).

(** [new History({ userId, points })]: the timestamp defaults to
    [Date.now()]. *)
Definition new_History (userId : JsValue) (points : Z) (now : Z)
  : M History.t :=
  match castObjectId userId with
  | None => throw CastError
  | Some id => ret (History.mk id points now)
  end.

(** [historyRecord.save({ session })] *)
Definition History_save (h : History.t) (sid : nat) (fails : bool) : M unit :=
  if fails then throw StorageError else stage sid (InsertHistory h).

(** ** The route handlers *)

(** [name.trim()]: only a string has the method. *)
Definition name_trim (name : JsValue) : M JsStr :=
  match name with
  | JsString s => mret (trim s)
  | _ => throw TypeError
  end.

(** GET / *)
Definition get_root : M Response :=
  mret (mkResponse 200 (Text "Hello, World!")).

(** POST /add-user *)
Definition add_user (body : gmap string JsValue) (env : AddUserEnv)
  : M Response :=
  let name := field "name" body in
  trimmed ← name_trim name;
  if negb (truthy (JsString trimmed))
  then mret (mkResponse 400 (Text "Name is required"))
  else
    try_catch
      (newUserName ← name_trim name;
       let newUser := new_User newUserName (newId env) in
       User_insert newUser (insertFails env);;
       mret (mkResponse 201 (UserJson newUser)))
      (λ error, mret (mkResponse 500 (Text "Error adding user"))).

(** [Math.floor(Math.random() * 10) + 1] *)
Definition randomPoints (env : ClaimEnv) : Z :=
  Number_add (Math_floor (Float64_mul (Math_random env) ten)) 1.

(** POST /claim-points *)
Definition claim_points (body : gmap string JsValue) (env : ClaimEnv)
  : M Response :=
  let userId := field "userId" body in
  if negb (truthy userId)
  then mret (mkResponse 400 (Text "User ID is required"))
  else
    let randomPoints := randomPoints env in
    session ← startSession;
    startTransaction session;;
    try_catch
      (user ← User_findById userId session (findFails env);
       match user with
       | None =>
           abortTransaction session;;
           mret (mkResponse 404 (Text "User not found"))
       | Some user =>
           (* Update points *)
           let user := User.mk (User._id user) (User.name user)
                               (Number_add (User.points user) randomPoints) in
           User_save user session (saveUserFails env);;
           (* Add to History Collection *)
           historyRecord ← new_History userId randomPoints (Date_now env);
           History_save historyRecord session (saveHistoryFails env);;
           commitTransaction session (commitFails env);;
           endSession session;;
           mret (mkResponse 200
                   (ClaimJson user (pretty randomPoints +:+ " points awarded")))
       end)
      (λ error,
         abortTransaction session;;
         endSession session;;
         mret (mkResponse 500 (Text "Error claiming points"))).

(** GET /rankings *)
Definition rankings (fails : bool) : M Response :=
  try_catch
    (rankings ← User_find_sorted fails;
     mret (mkResponse 200 (UsersJson rankings)))
    (λ error, mret (mkResponse 500 (Text "Error fetching rankings"))).

(** GET /latest-claim-history *)
Definition latest_claim_history (fails : bool) : M Response :=
  try_catch
    (latestHistory ← History_find_latest fails;
     mret (mkResponse 200 (HistoryJson latestHistory)))
    (λ error, mret (mkResponse 500 (Text "Error fetching latest claim history"))).

(** ** The server as a transition system *)

Inductive Request :=
  | GetRoot
  | PostAddUser (body : gmap string JsValue) (env : AddUserEnv)
  | PostClaimPoints (body : gmap string JsValue) (env : ClaimEnv)
  | GetRankings (fails : bool)
  | GetLatestClaimHistory (fails : bool).

Definition handle (r : Request) : M Response :=
  match r with
  | GetRoot => get_root
  | PostAddUser body env => add_user body env
  | PostClaimPoints body env => claim_points body env
  | GetRankings fails => rankings fails
  | GetLatestClaimHistory fails => latest_claim_history fails
  end.

(** What the environment may supply: [Math.random()] is in [0, 1). *)
Definition validEnv (r : Request) : Prop :=
  match r with
  | PostClaimPoints _ env => inUnitInterval (Math_random env)
  | _ => True
  end.

(** States the server reaches from the empty database, one request at a
    time. *)
Inductive reachable : World → Prop :=
  | reachable_init : reachable emptyWorld
  | reachable_step w r :
      reachable w → validEnv r → reachable (snd (handle r w)).

(** The world after serving the requests [rs] in order. *)
Definition serve (rs : list Request) (w : World) : World :=
  fold_left (λ w r, snd (handle r w)) rs w.

End Handlers.


(** ** Vocabulary of the properties *)

(** The world after a request that opened one session and left it as [s]. *)
Definition opened (w : World) (s : Session) : World :=
  mkWorld (users w) (histories w) (sessions w ++ [s]).

(** The in-memory document after [user.points += randomPoints]. *)
Definition awardedUser (u : User.t) (env : ClaimEnv) : User.t :=
  User.mk (User._id u) (User.name u)
          (Number_add (User.points u) (randomPoints env)).

(** Sum of the awards that the history log records for user [id]. *)
Fixpoint awarded (id : ObjectId) (hs : list History.t) : Z :=
  match hs with
  | [] => 0
  | h :: hs' =>
      (if (History.userId h =? id)%N then History.points h else 0)
      + awarded id hs'
  end.

(** Consistency of the two collections: ids are unique; every balance is a
    non-negative double, is at least each award recorded for the user, and
    is the sum of those awards as long as that sum is at most [2 ^ 53]; and
    every record holds an award between 1 and 10 for a user in the
    collection. *)
Record consistent (w : World) : Prop := mkConsistent {
  ids_unique : NoDup (User._id <$> users w);
  balance_of_history :
    ∀ u, u ∈ users w →
      isNumber (User.points u) ∧ 0 ≤ User.points u
      ∧ (awarded (User._id u) (histories w) ≤ 2 ^ 53 →
         User.points u = awarded (User._id u) (histories w))
      ∧ ∀ h, h ∈ histories w → History.userId h = User._id u →
             History.points h ≤ User.points u;
  history_wf :
    ∀ h, h ∈ histories w →
      1 ≤ History.points h ≤ 10
      ∧ ∃ u, u ∈ users w ∧ User._id u = History.userId h
}.

(** No storage call of the claim fails. *)
Definition noFault (env : ClaimEnv) : Prop :=
  findFails env = false ∧ saveUserFails env = false
  ∧ saveHistoryFails env = false ∧ commitFails env = false.

(** ** A concrete ObjectId cast: strings of 24 hexadecimal digits *)

Definition hexDigit (c : N) : option N :=
  (if (48 <=? c) && (c <=? 57) then Some (c - 48)
   else if (97 <=? c) && (c <=? 102) then Some (c - 87)
   else if (65 <=? c) && (c <=? 70) then Some (c - 55)
   else None)%N.

Fixpoint parseHex (acc : N) (s : JsStr) : option N :=
  match s with
  | [] => Some acc
  | c :: s' =>
      match hexDigit c with
      | Some d => parseHex (16 * acc + d)%N s'
      | None => None
      end
  end.

Definition castHex24 (v : JsValue) : option ObjectId :=
  match v with
  | JsString s => if (length s =? 24)%nat then parseHex 0%N s else None
  | _ => None
  end.

(** Sample requests. *)
Definition idAda : ObjectId := default 0%N (parseHex 0%N (js "507f1f77bcf86cd799439011")).

Definition bodyAddAda : gmap string JsValue := {[ "name" := JsString (js " Ada ") ]}.

Definition bodyClaimAda : gmap string JsValue :=
  {[ "userId" := JsString (js "507f1f77bcf86cd799439011") ]}.

Definition bodyClaimNobody : gmap string JsValue :=
  {[ "userId" := JsString (js "0123456789abcdef01234567") ]}.

Definition envAddAda : AddUserEnv := mkAddUserEnv idAda false.

(** The doubles written 0.7, 0.05 and 0.99. *)
Definition d0_7 : Float64 := mkFloat64 6305039478318694 (-53).
Definition d0_05 : Float64 := mkFloat64 7205759403792794 (-57).
Definition d0_99 : Float64 := mkFloat64 8917127262193582 (-53).

(** No storage fault; [Math.random()] returned [r] at time [t]. *)
Definition envClaim (r : Float64) (t : Z) : ClaimEnv :=
  mkClaimEnv r t false false false false.

(** The database after registering Ada. *)
Definition worldAda : World := snd (add_user bodyAddAda envAddAda emptyWorld).

(** Ada registers, then claims at times 1, 2 and 3. *)
Definition demoRequests : list Request :=
  [ PostAddUser bodyAddAda envAddAda;
    PostClaimPoints bodyClaimAda (envClaim d0_7 1);
    PostClaimPoints bodyClaimAda (envClaim d0_05 2);
    PostClaimPoints bodyClaimAda (envClaim d0_99 3) ].

Definition worldDemo : World := serve castHex24 demoRequests emptyWorld.

(** Ada's first claim, on its own: the response and the world after it. *)
Definition respClaimed : Response :=
  mkResponse 200 (ClaimJson (User.mk idAda (js "Ada") 8) "8 points awarded").

Definition worldClaimed : World :=
  snd (claim_points castHex24 bodyClaimAda (envClaim d0_7 1) worldAda).

Definition idNobody : ObjectId :=
  default 0%N (parseHex 0%N (js "0123456789abcdef01234567")).

Definition bodyBlankName : gmap string JsValue := {[ "name" := JsString (js "  ") ]}.

(** ** Vocabulary of the further properties *)

Definition sumZ (l : list Z) : Z := foldr Z.add 0 l.

(** All points held by users, and all points the log records. *)
Definition totalPoints (w : World) : Z := sumZ (User.points <$> users w).
Definition totalAwards (w : World) : Z := sumZ (History.points <$> histories w).


(** A name as [trim] leaves it when it is not blank: not empty, and no
    white space first or last. *)
Definition cleanName (n : JsStr) : Prop :=
  n ≠ []
  ∧ (∀ c, head n = Some c → isWhiteSpace c = false)
  ∧ (∀ c, last n = Some c → isWhiteSpace c = false).

(** The double [ceil ((n - 1) * 2 ^ 53 / 10) * 2 ^ -53], just above
    [(n - 1) / 10]. *)
Definition drawFor (n : Z) : Float64 :=
  mkFloat64 (((n - 1) * 2 ^ 53 + 9) / 10) (-53).

(** More sample requests. *)
Definition bodyClaimMalformed : gmap string JsValue :=
  {[ "userId" := JsString (js "abc") ]}.

Definition bodyClaimZero : gmap string JsValue := {[ "userId" := JsNumber 0 ]}.


(** The history insert fails; the calls before it go through. *)
Definition envInsertFails : ClaimEnv := mkClaimEnv d0_7 1 false false true false.

(** The double 0, for which the award is 1. *)
Definition d0_0 : Float64 := mkFloat64 0 (-1074).

(** A database whose one user holds [2 ^ 53] points. *)
Definition worldBig : World :=
  mkWorld [User.mk idAda (js "Ada") (2 ^ 53)] [] [].

(** Ada registers and then claims [n] times, each time with an award of 8. *)
Definition saturated (n : nat) : World :=
  serve castHex24
    (PostAddUser bodyAddAda envAddAda
     :: replicate n (PostClaimPoints bodyClaimAda (envClaim d0_7 1)))
    emptyWorld.

(** [2 ^ 50] such claims bring the balance to [2 ^ 53]. *)
Definition manyClaims : nat := Z.to_nat (2 ^ 50).

Definition worldSaturated : World := saturated manyClaims.

(** One more claim, with an award of 1. *)
Definition claimOne : Request := PostClaimPoints bodyClaimAda (envClaim d0_0 2).

(** * Properties *)

(** ** Strings *)

Lemma trimStart_nil (s : JsStr) :
  trimStart s = [] ↔ Forall (λ c, isWhiteSpace c = true) s.
Proof.
  induction s as [|c s IH]; simpl.
  - split; [constructor | done].
  - destruct (isWhiteSpace c) eqn:Hc.
    + rewrite IH. split; [by constructor | by inversion 1].
    + split; [done |]. inversion 1; congruence.
Qed.

(** What [trimStart] keeps does not start with white space. *)
Lemma trimStart_ws (s : JsStr) :
  Forall (λ c, isWhiteSpace c = true) (trimStart s) → trimStart s = [].
Proof.
  induction s as [|c s IH]; simpl; [done |].
  destruct (isWhiteSpace c) eqn:Hc; [done |].
  inversion 1; congruence.
Qed.

Lemma trim_nil (s : JsStr) :
  trim s = [] ↔ Forall (λ c, isWhiteSpace c = true) s.
Proof.
  unfold trim, trimEnd. rewrite <- trimStart_nil. split.
  - intros H. apply (f_equal reverse) in H. rewrite reverse_involutive in H.
    simpl in H. apply trimStart_nil in H. rewrite Forall_reverse in H.
    by apply trimStart_ws.
  - intros ->. reflexivity.
Qed.

(** ** POST /add-user *)

Lemma add_user_string body env w s :
  body !! "name" = Some (JsString s) →
  add_user body env w =
    match trim s with
    | [] => (Ok (mkResponse 400 (Text "Name is required")), w)
    | _ =>
        let newUser := User.mk (newId env) (trim s) 0 in
        if insertFails env
        then (Ok (mkResponse 500 (Text "Error adding user")), w)
        else match findUser (newId env) (users w) with
             | Some _ => (Ok (mkResponse 500 (Text "Error adding user")), w)
             | None => (Ok (mkResponse 201 (UserJson newUser)),
                        mkWorld (users w ++ [newUser]) (histories w) (sessions w))
             end
    end.
Proof.
  intros Hname. unfold add_user, field. rewrite Hname. simpl.
  unfold mbind, M_bind, bind, mret, M_ret, ret, try_catch. simpl.
  destruct (trim s) as [|c t] eqn:Ht; simpl; [done |].
  unfold User_insert, new_User. simpl.
  destruct (insertFails env); simpl; [done |].
  by destruct (findUser (newId env) (users w)).
Qed.

Lemma add_user_not_string body env w :
  (∀ s, body !! "name" ≠ Some (JsString s)) →
  add_user body env w = (Throw TypeError, w).
Proof.
  intros Hname. unfold add_user, field.
  destruct (body !! "name") as [[| |b|q|s|]|] eqn:E; simpl; try done.
  by destruct (Hname s).
Qed.

(** C7: a name that is empty or consists of white space only is answered
    with 400 and the database is left as it was; a name with some other
    character, when the insert goes through (no storage fault, the
    generated _id is unused), is answered with 201 and the created user,
    whose points are 0 and which is appended to the collection. *)
Theorem add_user_validates_name body env w s :
  body !! "name" = Some (JsString s) →
  (Forall (λ c, isWhiteSpace c = true) s →
     add_user body env w = (Ok (mkResponse 400 (Text "Name is required")), w))
  ∧ (¬ Forall (λ c, isWhiteSpace c = true) s →
     insertFails env = false →
     findUser (newId env) (users w) = None →
     ∃ newUser,
       add_user body env w =
         (Ok (mkResponse 201 (UserJson newUser)),
          mkWorld (users w ++ [newUser]) (histories w) (sessions w))
       ∧ User.points newUser = 0
       ∧ User.name newUser = trim s
       ∧ User._id newUser = newId env).
Proof.
  intros Hname. rewrite (add_user_string _ _ _ _ Hname). split.
  - intros Hws. apply trim_nil in Hws. by rewrite Hws.
  - intros Hws Hins Hfresh. rewrite <- trim_nil in Hws.
    destruct (trim s) as [|c t] eqn:Ht; [done |].
    rewrite Hins, Hfresh. simpl. eauto.
Qed.

(** C10: with no [name] in the body the handler throws a TypeError out of
    [name.trim()] and sends no response; a 400 is sent only when [name] is a
    string. *)
Theorem add_user_missing_name_throws body env w :
  body !! "name" = None →
  add_user body env w = (Throw TypeError, w)
  ∧ (∀ body' env' w0 r w',
       add_user body' env' w0 = (Ok r, w') → status r = 400 →
       ∃ s, body' !! "name" = Some (JsString s)).
Proof.
  intros Hname. split.
  - apply add_user_not_string. intros s. by rewrite Hname.
  - intros body' env' w0 r w' Hrun _.
    destruct (body' !! "name") as [[| |b|q|s|]|] eqn:E; eauto;
      rewrite add_user_not_string in Hrun; try done;
      intros s; by rewrite E.
Qed.

(** ** Collections *)

Lemma findUser_Some id us u :
  findUser id us = Some u → User._id u = id ∧ u ∈ us.
Proof.
  unfold findUser. intros H. apply find_some in H as [Hin Heq].
  split; [by apply N.eqb_eq | by apply list_elem_of_In].
Qed.

Lemma findUser_None id us :
  findUser id us = None ↔ id ∉ User._id <$> us.
Proof.
  unfold findUser. induction us as [|u us IH]; simpl.
  - split; [intros _; apply not_elem_of_nil | done].
  - rewrite not_elem_of_cons. destruct (N.eqb_spec (User._id u) id) as [E|E].
    + split; [done | intros [? _]; congruence].
    + rewrite IH. split; [intros ?; split; [congruence | done] | by intros [_ ?]].
Qed.

Lemma findUser_app id us vs :
  findUser id (us ++ vs) =
    match findUser id us with Some u => Some u | None => findUser id vs end.
Proof.
  unfold findUser. induction us as [|u us IH]; simpl; [done |].
  by destruct (User._id u =? id)%N.
Qed.

Lemma findUser_setPoints_eq id p us u :
  findUser id us = Some u →
  findUser id (setPoints id p us) = Some (User.mk (User._id u) (User.name u) p).
Proof.
  unfold findUser. induction us as [|v us IH]; simpl; [done |].
  destruct (N.eqb_spec (User._id v) id) as [E|E]; simpl.
  - intros [= ->]. by rewrite E, N.eqb_refl.
  - intros H. destruct (N.eqb_spec (User._id v) id); [done | auto].
Qed.

Lemma findUser_setPoints_ne id id' p us :
  id' ≠ id → findUser id' (setPoints id p us) = findUser id' us.
Proof.
  intros Hne. unfold findUser. induction us as [|v us IH]; simpl; [done |].
  destruct (N.eqb_spec (User._id v) id) as [E|E]; simpl.
  - destruct (N.eqb_spec (User._id v) id'); [congruence | done].
  - destruct (User._id v =? id')%N; [done | apply IH].
Qed.

Lemma setPoints_ids id p us : User._id <$> setPoints id p us = User._id <$> us.
Proof.
  induction us as [|v us IH]; csimpl; [done |].
  destruct (User._id v =? id)%N; csimpl; [done | by rewrite IH].
Qed.

Lemma setPoints_absent id p us : id ∉ User._id <$> us → setPoints id p us = us.
Proof.
  induction us as [|v us IH]; csimpl; [done |].
  rewrite not_elem_of_cons. intros [Hv Hus].
  destruct (N.eqb_spec (User._id v) id); [congruence | by rewrite IH].
Qed.

(** With unique ids, the update touches exactly the documents of that id. *)
Lemma setPoints_fmap id p us :
  NoDup (User._id <$> us) →
  setPoints id p us =
    (λ u, if (User._id u =? id)%N then User.mk (User._id u) (User.name u) p else u)
      <$> us.
Proof.
  induction us as [|v us IH]; csimpl; [done |].
  rewrite NoDup_cons. intros [Hv Hus].
  destruct (N.eqb_spec (User._id v) id) as [E|E].
  - f_equal. rewrite <- (setPoints_absent id p us) at 1 by congruence.
    by apply IH.
  - f_equal. by apply IH.
Qed.

(** With unique ids, each stored document is the one its _id finds. *)
Lemma findUser_elem us v :
  NoDup (User._id <$> us) → v ∈ us → findUser (User._id v) us = Some v.
Proof.
  unfold findUser. induction us as [|x us IH]; csimpl; [by inversion 2 |].
  rewrite NoDup_cons. intros [Hx Hnd] [-> | Hv]%elem_of_cons.
  - by rewrite N.eqb_refl.
  - destruct (N.eqb_spec (User._id x) (User._id v)) as [E|E]; [| by apply IH].
    destruct Hx. rewrite E. by apply list_elem_of_fmap_2.
Qed.

(** ** The award *)

Lemma roundShift_bounds p k :
  0 ≤ p → 0 ≤ k →
  p / 2 ^ k ≤ roundShift p k ≤ p / 2 ^ k + 1
  ∧ (2 * (p mod 2 ^ k) < 2 ^ k → roundShift p k = p / 2 ^ k).
Proof.
  intros Hp Hk. unfold roundShift. cbv zeta.
  rewrite Z.shiftr_div_pow2, Z.land_ones by lia.
  destruct (Z.compare_spec (2 * (p mod 2 ^ k)) (2 ^ k));
    try destruct (Z.even (p / 2 ^ k)); split; lia.
Qed.

(** The product of a double below 1 by 10 rounds to a double below 10: the
    largest one, [(2 ^ 53 - 1) * 2 ^ -53], gives [10 - 2 ^ -49]. *)
Lemma times_ten_mantissa d :
  inUnitInterval d →
  let k := Z.max (Z.max 0 (Z.log2 (mantissa d * 5) + 1 - 53))
                 (-1074 - (exponent d + 1)) in
  0 ≤ k ≤ 3 ∧ 0 ≤ roundShift (mantissa d * 5) k < 5 * 2 ^ (53 - k).
Proof.
  intros [[Hm0 Hm1] [He0 He1]]. cbv zeta.
  set (p := mantissa d * 5).
  set (k := Z.max _ _).
  assert (0 ≤ p < 5 * 2 ^ 53) as Hp by (unfold p; lia).
  assert (0 ≤ k ≤ 3) as Hk.
  { assert (Z.log2 p < 56).
    { destruct (Z.eq_dec p 0) as [-> | ?]; [simpl; lia |].
      apply Z.log2_lt_pow2; lia. }
    unfold k. lia. }
  split; [done |].
  destruct (roundShift_bounds p k) as [[Hlo Hhi] Hdown]; [lia | lia |].
  assert (k = 0 ∨ k = 1 ∨ k = 2 ∨ k = 3) as Hcases by lia.
  change (2 ^ 53) with 9007199254740992 in *.
  assert (p ≤ 5 * 9007199254740992 - 5) by (unfold p; lia).
  clearbody k p.
  destruct Hcases as [-> | [-> | [-> | ->]]]; simpl Z.sub; simpl Z.pow in *;
    try (rewrite Z.div_1_r in *; rewrite Z.mod_1_r in *;
         specialize (Hdown ltac:(lia)));
    Z.div_mod_to_equations; lia.
Qed.

(** ** Integer-valued doubles *)

Lemma roundShift_exact c k : 0 ≤ c → 0 ≤ k → roundShift (c * 2 ^ k) k = c.
Proof.
  intros Hc Hk. unfold roundShift. cbv zeta.
  assert (0 < 2 ^ k) by (apply Z.pow_pos_nonneg; lia).
  rewrite Z.shiftr_div_pow2, Z.land_ones by lia.
  rewrite Z.div_mul, Z.mod_mul by lia.
  destruct (Z.compare_spec (2 * 0) (2 ^ k)); [lia | done | lia].
Qed.

Lemma roundShift_zero p : roundShift p 0 = p.
Proof.
  replace p with (p * 2 ^ 0) at 1 by (simpl; lia).
  unfold roundShift. cbv zeta. simpl Z.ones. rewrite Z.land_0_r, Z.shiftr_0_r.
  simpl. lia.
Qed.

(** The binade of a positive integer above 53 bits. *)
Lemma binade n k :
  0 < n → k = Z.log2 n + 1 - 53 → 1 ≤ k →
  2 ^ 52 * 2 ^ k ≤ n < 2 ^ 53 * 2 ^ k
  ∧ 2 ^ 52 ≤ n / 2 ^ k < 2 ^ 53
  ∧ 2 ^ 52 ≤ roundShift n k ≤ 2 ^ 53.
Proof.
  intros Hn Hk Hk1.
  destruct (Z.log2_spec n Hn) as [Hlo Hhi].
  assert (0 < 2 ^ k) by (apply Z.pow_pos_nonneg; lia).
  assert (2 ^ 52 * 2 ^ k ≤ n < 2 ^ 53 * 2 ^ k) as Hb.
  { rewrite <- !Z.pow_add_r by lia.
    replace (52 + k) with (Z.log2 n) by lia.
    replace (53 + k) with (Z.succ (Z.log2 n)) by lia. done. }
  assert (2 ^ 52 ≤ n / 2 ^ k < 2 ^ 53) as Hq.
  { split; [apply Z.div_le_lower_bound; lia | apply Z.div_lt_upper_bound; lia]. }
  split; [done |]. split; [done |].
  destruct (roundShift_bounds n k) as [[? ?] _]; lia.
Qed.

Lemma roundNumber_small n : Z.abs n ≤ 2 ^ 53 → roundNumber n = n.
Proof.
  intros Hn. unfold roundNumber. cbv zeta.
  destruct (Z.eq_dec (Z.abs n) (2 ^ 53)) as [E|E].
  - rewrite E. change (Z.log2 (2 ^ 53)) with 53. change (Z.max 0 (53 + 1 - 53)) with 1.
    change (2 ^ 53) with (2 ^ 52 * 2 ^ 1). rewrite roundShift_exact by lia.
    change (2 ^ 52 * 2 ^ 1) with (2 ^ 53). rewrite <- E. lia.
  - assert (Z.log2 (Z.abs n) < 53).
    { destruct (Z.eq_dec (Z.abs n) 0) as [-> | ?]; [simpl; lia |].
      apply Z.log2_lt_pow2; lia. }
    rewrite Z.max_l by lia. rewrite roundShift_zero. lia.
Qed.

Lemma roundNumber_pos n :
  0 < n →
  roundNumber n = roundShift n (Z.max 0 (Z.log2 n + 1 - 53))
                  * 2 ^ Z.max 0 (Z.log2 n + 1 - 53).
Proof.
  intros Hn. unfold roundNumber. cbv zeta. rewrite Z.abs_eq by lia.
  rewrite Z.sgn_pos by lia. lia.
Qed.

Lemma roundNumber_opp n : roundNumber (- n) = - roundNumber n.
Proof. unfold roundNumber. cbv zeta. rewrite Z.abs_opp, Z.sgn_opp. lia. Qed.

Lemma roundNumber_nonneg n : 0 ≤ n → 0 ≤ roundNumber n.
Proof.
  intros Hn. destruct (Z.eq_dec n 0) as [-> | ?]; [done |].
  rewrite roundNumber_pos by lia.
  set (k := Z.max _ _).
  destruct (roundShift_bounds n k) as [[? _] _]; [lia | lia |].
  assert (0 ≤ n / 2 ^ k) by (apply Z.div_pos; [lia | apply Z.pow_pos_nonneg; lia]).
  apply Z.mul_nonneg_nonneg; [lia | apply Z.pow_nonneg; lia].
Qed.

Lemma roundNumber_idem_pos n : 0 < n → roundNumber (roundNumber n) = roundNumber n.
Proof.
  intros Hn.
  destruct (Z_le_gt_dec (Z.log2 n + 1 - 53) 0) as [Hk | Hk].
  { assert (n < 2 ^ 53).
    { apply Z.log2_lt_pow2; lia. }
    by rewrite !(roundNumber_small n) by lia. }
  rewrite (roundNumber_pos n Hn). rewrite Z.max_r by lia.
  set (k := Z.log2 n + 1 - 53) in *.
  destruct (binade n k Hn eq_refl) as (_ & _ & Hq); [lia |].
  set (q := roundShift n k) in *.
  assert (0 < 2 ^ k) by (apply Z.pow_pos_nonneg; lia).
  assert (0 < q * 2 ^ k) by nia.
  rewrite (roundNumber_pos (q * 2 ^ k)) by done.
  rewrite Z.log2_mul_pow2 by lia.
  destruct (Z.eq_dec q (2 ^ 53)) as [E | E].
  - rewrite E. change (Z.log2 (2 ^ 53)) with 53.
    rewrite Z.max_r by lia. replace (k + 53 + 1 - 53) with (k + 1) by lia.
    replace (2 ^ 53 * 2 ^ k) with (2 ^ 52 * 2 ^ (k + 1))
      by (rewrite Z.pow_add_r by lia; change (2 ^ 53) with (2 ^ 52 * 2 ^ 1); lia).
    rewrite roundShift_exact by lia. done.
  - assert (Z.log2 q = 52) as ->.
    { apply Z.log2_unique; [lia |]. change (2 ^ Z.succ 52) with (2 ^ 53). lia. }
    rewrite Z.max_r by lia. replace (k + 52 + 1 - 53) with k by lia.
    rewrite roundShift_exact by lia. done.
Qed.

Lemma roundNumber_idem n : roundNumber (roundNumber n) = roundNumber n.
Proof.
  destruct (Z.lt_trichotomy n 0) as [Hn | [-> | Hn]].
  - assert (0 < - n) as Hm by lia. revert Hm.
    replace n with (- - n) at 2 3 by lia. generalize (- n). intros m Hm.
    rewrite (roundNumber_opp m), (roundNumber_opp (roundNumber m)).
    by rewrite roundNumber_idem_pos.
  - done.
  - by apply roundNumber_idem_pos.
Qed.

(** Rounding never goes below a double that is at most the exact value. *)
Lemma roundNumber_ge b n : isNumber b → 0 ≤ b ≤ n → b ≤ roundNumber n.
Proof.
  intros Hb [Hb0 Hbn].
  destruct (Z_le_gt_dec (Z.log2 n + 1 - 53) 0) as [Hk | Hk].
  { assert (n < 2 ^ 53).
    { destruct (Z.eq_dec n 0) as [-> | ?]; [done |]. apply Z.log2_lt_pow2; lia. }
    rewrite roundNumber_small by lia. done. }
  assert (0 < n).
  { destruct (Z.eq_dec n 0) as [-> | ?]; [simpl in Hk; lia | lia]. }
  rewrite (roundNumber_pos n) by done. rewrite Z.max_r by lia.
  set (k := Z.log2 n + 1 - 53) in *.
  destruct (binade n k) as (Hn & Hdiv & Hq); [done | done | lia |].
  assert (0 < 2 ^ k) by (apply Z.pow_pos_nonneg; lia).
  destruct (roundShift_bounds n k) as [[Hlo _] _]; [lia | lia |].
  destruct (Z_lt_ge_dec b (2 ^ 52 * 2 ^ k)) as [Hsmall | Hbig]; [nia |].
  assert (Z.log2 b = Z.log2 n) as Hlog.
  { apply Z.log2_unique; [apply Z.log2_nonneg |].
    replace (Z.log2 n) with (52 + k) by lia.
    replace (Z.succ (52 + k)) with (53 + k) by lia.
    rewrite !Z.pow_add_r by lia. lia. }
  unfold isNumber in Hb. rewrite roundNumber_pos in Hb by lia.
  rewrite Hlog in Hb. fold k in Hb. rewrite Z.max_r in Hb by lia.
  assert (roundShift b k ≤ n / 2 ^ k) by (apply Z.div_le_lower_bound; lia).
  nia.
Qed.

Lemma Number_add_exact a b : Z.abs (a + b) ≤ 2 ^ 53 → Number_add a b = a + b.
Proof. apply roundNumber_small. Qed.

Lemma Number_add_isNumber a b : isNumber (Number_add a b).
Proof. apply roundNumber_idem. Qed.

Lemma Number_add_zero_l n : isNumber n → Number_add 0 n = n.
Proof. unfold Number_add. by rewrite Z.add_0_l. Qed.

(** Adding an amount that is not negative to a balance, itself a double
    that is not negative, never lowers the balance and never gives less than
    the amount. *)
Lemma Number_add_ge b a :
  isNumber b → 0 ≤ b → 0 ≤ a ≤ 2 ^ 53 →
  b ≤ Number_add b a ∧ a ≤ Number_add b a.
Proof.
  intros Hb Hb0 Ha. unfold Number_add. split.
  - apply roundNumber_ge; [done | lia].
  - apply roundNumber_ge; [| lia]. apply roundNumber_small. lia.
Qed.

Lemma isNumber_0 : isNumber 0.
Proof. reflexivity. Qed.

(** The integer part of ten times a double below 1 is between 0 and 9. *)
Lemma floor_times_ten d :
  inUnitInterval d → 0 ≤ Math_floor (Float64_mul d ten) ≤ 9.
Proof.
  intros Hd. pose proof (times_ten_mantissa _ Hd) as [Hk HM].
  destruct Hd as [[Hm0 Hm1] [He0 He1]].
  unfold Math_floor, Float64_mul, ten. cbn [mantissa exponent].
  set (k := Z.max _ _) in *. set (M := roundShift _ k) in *.
  assert (exponent d + 1 + k ≤ 0) as HE by lia.
  rewrite (Z.shiftl_div_pow2 M _ HE).
  set (n := - (exponent d + 1 + k)).
  assert (2 ^ (53 - k) ≤ 2 * 2 ^ n) as Hpow.
  { replace (2 * 2 ^ n) with (2 ^ (n + 1)) by (rewrite Z.pow_add_r; lia).
    apply Z.pow_le_mono_r; lia. }
  assert (0 < 2 ^ n) by (apply Z.pow_pos_nonneg; lia).
  assert (0 ≤ M / 2 ^ n) by (apply Z.div_pos; lia).
  assert (M / 2 ^ n < 10) by (apply Z.div_lt_upper_bound; lia).
  lia.
Qed.

Lemma randomPoints_range env :
  inUnitInterval (Math_random env) → 1 ≤ randomPoints env ≤ 10.
Proof.
  intros Hd. pose proof (floor_times_ten _ Hd). unfold randomPoints.
  rewrite Number_add_exact; [lia |]. change (2 ^ 53) with 9007199254740992. lia.
Qed.

Lemma randomPoints_isNumber env : isNumber (randomPoints env).
Proof. apply Number_add_isNumber. Qed.

(** ** Sessions *)

Lemma alter_fresh (f : Session → Session) (l : list Session) (s : Session) :
  alter f (length l) (l ++ [s]) = l ++ [f s].
Proof.
  replace (length l) with (length l + 0)%nat by lia.
  by rewrite alter_app_r.
Qed.

Lemma lookup_fresh (l : list Session) (s : Session) :
  (l ++ [s]) !! length l = Some s.
Proof. by rewrite list_lookup_middle. Qed.

(** ** POST /claim-points *)

Section ClaimPoints.

Variable castObjectId : JsValue → option ObjectId.

(** The handler, path by path. *)
Lemma claim_points_eq body env w :
  claim_points castObjectId body env w =
    let userId := field "userId" body in
    let failed := (Ok (mkResponse 500 (Text "Error claiming points")),
                   opened w (mkSession Aborted [] true)) in
    if truthy userId then
      match castObjectId userId with
      | None => failed
      | Some id =>
          if findFails env then failed else
          match findUser id (users w) with
          | None => (Ok (mkResponse 404 (Text "User not found")),
                     opened w (mkSession Aborted [] false))
          | Some u =>
              if saveUserFails env then failed else
              if saveHistoryFails env then failed else
              if commitFails env then
                (Throw TransactionError,
                 opened w
                   (mkSession Committed
                      [SetPoints (User._id u)
                         (Number_add (User.points u) (randomPoints env));
                       InsertHistory
                         (History.mk id (randomPoints env) (Date_now env))]
                      false))
              else
              (Ok (mkResponse 200
                     (ClaimJson (awardedUser u env)
                        (pretty (randomPoints env) +:+ " points awarded"))),
               mkWorld
                 (setPoints (User._id u)
                    (Number_add (User.points u) (randomPoints env)) (users w))
                 (histories w ++ [History.mk id (randomPoints env) (Date_now env)])
                 (sessions w ++ [mkSession Committed [] true]))
          end
      end
    else (Ok (mkResponse 400 (Text "User ID is required")), w).
Proof.
  unfold claim_points. cbv zeta.
  destruct (truthy (field "userId" body)); simpl; [| done].
  unfold mbind, M_bind, bind, mret, M_ret, ret, try_catch, startSession,
    startTransaction, abortTransaction, endSession, updSession,
    User_findById, new_History, opened.
  simpl.
  destruct (castObjectId (field "userId" body)) as [id|] eqn:Hcast; simpl.
  2:{ rewrite !alter_fresh, lookup_fresh. simpl. by rewrite !alter_fresh. }
  destruct (findFails env); simpl.
  { rewrite !alter_fresh, lookup_fresh. simpl. by rewrite !alter_fresh. }
  unfold sessionView. simpl. rewrite !alter_fresh, lookup_fresh. simpl.
  destruct (findUser id (users w)) as [u|] eqn:Hfind; simpl.
  2:{ rewrite lookup_fresh. simpl. by rewrite !alter_fresh. }
  unfold User_save, History_save, commitTransaction, stage, updSession, throw.
  destruct (saveUserFails env); simpl.
  { rewrite lookup_fresh. simpl. by rewrite !alter_fresh. }
  destruct (saveHistoryFails env); simpl.
  { rewrite !alter_fresh, lookup_fresh. simpl. by rewrite !alter_fresh. }
  rewrite !alter_fresh, lookup_fresh. simpl.
  destruct (commitFails env); simpl.
  { rewrite !alter_fresh, lookup_fresh. simpl. reflexivity. }
  rewrite !alter_fresh. reflexivity.
Qed.

(** C1, as amended: a claim answered with 200 awards an integer between 1
    and 10; the user's balance afterwards is the binary64 sum of the balance
    before and that amount, which is the balance before plus exactly that
    amount whenever that sum is at most [2 ^ 53] in magnitude; the history
    log grows by exactly one record, for that user and with that same
    amount; the response carries the updated user and names the amount; no
    other user's document changes. *)
Theorem claim_success_awards body env w r w' :
  inUnitInterval (Math_random env) →
  claim_points castObjectId body env w = (Ok r, w') →
  status r = 200 →
  ∃ id u award,
    1 ≤ award ≤ 10
    ∧ castObjectId (field "userId" body) = Some id
    ∧ findUser id (users w) = Some u
    ∧ findUser id (users w') =
        Some (User.mk id (User.name u) (Number_add (User.points u) award))
    ∧ (Z.abs (User.points u + award) ≤ 2 ^ 53 →
       Number_add (User.points u) award = User.points u + award)
    ∧ histories w' = histories w ++ [History.mk id award (Date_now env)]
    ∧ payload r =
        ClaimJson (User.mk id (User.name u) (Number_add (User.points u) award))
                  (pretty award +:+ " points awarded")
    ∧ ∀ id', id' ≠ id → findUser id' (users w') = findUser id' (users w).
Proof.
  intros Hrnd Hrun Hstatus. rewrite claim_points_eq in Hrun. cbv zeta in Hrun.
  destruct (truthy (field "userId" body)); [| by simplify_eq].
  destruct (castObjectId (field "userId" body)) as [id|]; [| by simplify_eq].
  destruct (findFails env); [by simplify_eq |].
  destruct (findUser id (users w)) as [u|] eqn:Hfind; [| by simplify_eq].
  destruct (saveUserFails env); [by simplify_eq |].
  destruct (saveHistoryFails env); [by simplify_eq |].
  destruct (commitFails env); [by simplify_eq |].
  simplify_eq. simpl.
  destruct (findUser_Some _ _ _ Hfind) as [Hid _]. subst id.
  exists (User._id u), u, (randomPoints env).
  split; [by apply randomPoints_range |].
  split; [done |]. split; [done |].
  split; [by apply findUser_setPoints_eq |].
  split; [apply Number_add_exact |].
  split; [done |]. split; [done |].
  intros id' Hne. by apply findUser_setPoints_ne.
Qed.

(** C3, as amended: when the request carries a userId that Mongoose casts to
    an ObjectId, the lookup completes and finds no user of that id, the
    handler aborts the transaction it opened and answers 404; no history
    record is created and no user document changes. (A userId that cannot
    be cast is answered 500, and an absent one 400.) *)
Theorem claim_unknown_user body env w id :
  truthy (field "userId" body) = true →
  castObjectId (field "userId" body) = Some id →
  findFails env = false →
  findUser id (users w) = None →
  ∃ w' s,
    claim_points castObjectId body env w =
      (Ok (mkResponse 404 (Text "User not found")), w')
    ∧ sessions w' = sessions w ++ [s]
    ∧ txn s = Aborted ∧ staged s = []
    ∧ histories w' = histories w
    ∧ users w' = users w.
Proof.
  intros Htruthy Hcast Hfault Hfind. rewrite claim_points_eq. cbv zeta.
  rewrite Htruthy, Hcast, Hfault, Hfind.
  by eexists _, _.
Qed.

(** Whatever the path, a claim for a userId that names no user leaves both
    collections as they were. *)
Lemma unknown_user_no_effect body env w :
  (∀ id, castObjectId (field "userId" body) = Some id →
         findUser id (users w) = None) →
  users (snd (claim_points castObjectId body env w)) = users w
  ∧ histories (snd (claim_points castObjectId body env w)) = histories w.
Proof.
  intros Hnone. rewrite claim_points_eq. cbv zeta.
  destruct (truthy (field "userId" body)); [| done].
  destruct (castObjectId (field "userId" body)) as [id|]; [| done].
  rewrite (Hnone id eq_refl). by destruct (findFails env).
Qed.

(** C6: a request whose userId is absent or the empty string is answered
    with 400 at once: the world is untouched, so no session was created and
    no transaction started. *)
Theorem claim_requires_userId body env w :
  body !! "userId" = None ∨ body !! "userId" = Some (JsString []) →
  claim_points castObjectId body env w =
    (Ok (mkResponse 400 (Text "User ID is required")), w)
  ∧ sessions (snd (claim_points castObjectId body env w)) = sessions w.
Proof.
  intros Hid. rewrite claim_points_eq. cbv zeta. unfold field.
  by destruct Hid as [-> | ->].
Qed.

(** X6: every falsy userId ([undefined], [null], [false], [0], the empty
    string) is answered with 400, and the world is left as it was. *)
Lemma claim_falsy_userId body env w :
  truthy (field "userId" body) = false →
  claim_points castObjectId body env w =
    (Ok (mkResponse 400 (Text "User ID is required")), w).
Proof. intros Hid. rewrite claim_points_eq. cbv zeta. by rewrite Hid. Qed.

(** X7: all or nothing: a claim that is not answered with 200 leaves both
    collections as they were. *)
Lemma claim_failure_no_effect body env w r w' :
  claim_points castObjectId body env w = (Ok r, w') →
  status r ≠ 200 →
  users w' = users w ∧ histories w' = histories w.
Proof.
  rewrite claim_points_eq. cbv zeta. intros Hrun Hstatus.
  destruct (truthy (field "userId" body)); [| by simplify_eq].
  destruct (castObjectId (field "userId" body)) as [id|]; [| by simplify_eq].
  destruct (findFails env); [by simplify_eq |].
  destruct (findUser id (users w)) as [u|]; [| by simplify_eq].
  destruct (saveUserFails env); [by simplify_eq |].
  destruct (saveHistoryFails env); [by simplify_eq |].
  destruct (commitFails env); by simplify_eq.
Qed.

End ClaimPoints.

(** ** The history log and the balances *)

Lemma awarded_app id hs ks : awarded id (hs ++ ks) = awarded id hs + awarded id ks.
Proof. induction hs as [|h hs IH]; simpl; lia. Qed.

Lemma awarded_absent id hs :
  (∀ h, h ∈ hs → History.userId h ≠ id) → awarded id hs = 0.
Proof.
  induction hs as [|h hs IH]; simpl; [done |]. intros Hne.
  rewrite IH by (intros; apply Hne; by right).
  destruct (N.eqb_spec (History.userId h) id) as [E|E]; [| done].
  destruct (Hne h); [by left | done].
Qed.

Lemma awarded_nonneg id hs :
  (∀ h, h ∈ hs → 1 ≤ History.points h) → 0 ≤ awarded id hs.
Proof.
  induction hs as [|h hs IH]; simpl; [done |]. intros Hpos.
  assert (1 ≤ History.points h) by (apply Hpos; by left).
  assert (0 ≤ awarded id hs) by (apply IH; intros; apply Hpos; by right).
  destruct (History.userId h =? id)%N; lia.
Qed.

(** A recorded award is part of the sum recorded for its user. *)
Lemma awarded_ge h hs :
  (∀ k, k ∈ hs → 1 ≤ History.points k) → h ∈ hs →
  History.points h ≤ awarded (History.userId h) hs.
Proof.
  induction hs as [|k hs IH]; simpl; [by inversion 2 |]. intros Hpos Hin.
  assert (1 ≤ History.points k) by (apply Hpos; by left).
  assert (∀ k, k ∈ hs → 1 ≤ History.points k) as Hpos'
    by (intros; apply Hpos; by right).
  apply elem_of_cons in Hin as [-> | Hin].
  - rewrite N.eqb_refl. pose proof (awarded_nonneg (History.userId k) hs Hpos'). lia.
  - specialize (IH Hpos' Hin). destruct (History.userId k =? History.userId h)%N; lia.
Qed.

Lemma consistent_empty : consistent emptyWorld.
Proof. split; simpl; [constructor | by inversion 1 | by inversion 1]. Qed.

(** ** Effect of each handler on the collections *)

Lemma add_user_world body env w :
  snd (add_user body env w) = w
  ∨ ∃ name, findUser (newId env) (users w) = None
      ∧ snd (add_user body env w) =
          mkWorld (users w ++ [User.mk (newId env) name 0]) (histories w) (sessions w).
Proof.
  destruct (body !! "name") as [[| |b|q|s|]|] eqn:E;
    try (left; rewrite add_user_not_string; [done | intros s'; by rewrite E]).
  rewrite (add_user_string _ _ _ _ E).
  destruct (trim s); [by left |].
  destruct (insertFails env); [by left |].
  destruct (findUser (newId env) (users w)) eqn:Hf; [by left |].
  right. by eexists.
Qed.

Lemma rankings_world fails w : snd (rankings fails w) = w.
Proof. by destruct fails. Qed.

Lemma latest_claim_history_world fails w : snd (latest_claim_history fails w) = w.
Proof. by destruct fails. Qed.

Section Reachable.

Variable castObjectId : JsValue → option ObjectId.

Lemma claim_points_world body env w :
  let w' := snd (claim_points castObjectId body env w) in
  (users w' = users w ∧ histories w' = histories w)
  ∨ ∃ id u,
      findUser id (users w) = Some u
      ∧ users w' =
          setPoints id (Number_add (User.points u) (randomPoints env)) (users w)
      ∧ histories w' =
          histories w ++ [History.mk id (randomPoints env) (Date_now env)].
Proof.
  rewrite claim_points_eq. cbv zeta.
  destruct (truthy (field "userId" body)); [| by left].
  destruct (castObjectId (field "userId" body)) as [id|]; [| by left].
  destruct (findFails env); [by left |].
  destruct (findUser id (users w)) as [u|] eqn:Hfind; [| by left].
  destruct (saveUserFails env); [by left |].
  destruct (saveHistoryFails env); [by left |].
  destruct (commitFails env); [by left |].
  right. exists id, u. destruct (findUser_Some _ _ _ Hfind) as [-> _]. done.
Qed.

Lemma consistent_ext w w' :
  users w' = users w → histories w' = histories w →
  consistent w → consistent w'.
Proof. intros Hu Hh [H1 H2 H3]. split; rewrite ?Hu, ?Hh; done. Qed.

Lemma add_user_consistent body env w :
  consistent w → consistent (snd (add_user body env w)).
Proof.
  intros Hc. destruct (add_user_world body env w) as [-> | (name & Hfresh & ->)];
    [done |].
  destruct Hc as [Hnd Hbal Hwf]. apply findUser_None in Hfresh.
  assert (∀ h, h ∈ histories w → History.userId h ≠ newId env) as Hnone.
  { intros h Hh Heq. destruct (Hwf h Hh) as (_ & v & Hv & Hid).
    apply Hfresh. rewrite <- Heq, <- Hid. by apply list_elem_of_fmap_2. }
  split; simpl.
  - rewrite fmap_app. csimpl. apply NoDup_app. split; [done |].
    split; [| apply NoDup_singleton].
    intros x Hx. rewrite list_elem_of_singleton. congruence.
  - intros u [Hu | Hu]%elem_of_app; [by apply Hbal |].
    apply list_elem_of_singleton in Hu as ->. simpl.
    split; [apply isNumber_0 |]. split; [done |].
    split; [intros _; symmetry; by apply awarded_absent |].
    intros h Hh Heq. by destruct (Hnone h Hh).
  - intros h Hh. destruct (Hwf h Hh) as (Hr & v & Hv & Hid).
    split; [done |]. exists v. split; [| done]. apply elem_of_app. by left.
Qed.

Lemma claim_points_consistent body env w :
  inUnitInterval (Math_random env) →
  consistent w → consistent (snd (claim_points castObjectId body env w)).
Proof.
  intros Hrnd Hc.
  destruct (claim_points_world body env w) as [[Hu Hh] | (id & u & Hfind & Hu & Hh)].
  { by apply (consistent_ext w). }
  pose proof (randomPoints_range env Hrnd) as Hrange.
  destruct Hc as [Hnd Hbal Hwf].
  destruct (findUser_Some _ _ _ Hfind) as [Hid Hin].
  destruct (Hbal u Hin) as (Hnum & Hpos & Hsum & Hrec).
  destruct (Number_add_ge (User.points u) (randomPoints env)) as [Hge1 Hge2];
    [done | done | change (2 ^ 53) with 9007199254740992; lia |].
  split; rewrite ?Hu, ?Hh.
  - by rewrite setPoints_ids.
  - intros u' Hu'. rewrite setPoints_fmap in Hu' by done.
    apply list_elem_of_fmap in Hu' as (v & -> & Hv).
    rewrite awarded_app. simpl.
    destruct (N.eqb_spec (User._id v) id) as [E|E]; simpl.
    + rewrite E, N.eqb_refl.
      assert (v = u) as ->.
      { pose proof (findUser_elem _ _ Hnd Hv) as Hfv. rewrite E, Hfind in Hfv.
        by injection Hfv. }
      split; [apply Number_add_isNumber |]. split; [lia |]. split.
      * intros Hle. rewrite Hid in Hsum.
        pose proof (awarded_nonneg id (histories w)) as Hnn.
        assert (0 ≤ awarded id (histories w)).
        { apply Hnn. intros k Hk. by destruct (Hwf k Hk) as [[? _] _]. }
        rewrite <- Hsum by lia. rewrite Number_add_exact; lia.
      * intros h [Hh' | ->%list_elem_of_singleton]%elem_of_app Heq; simpl.
        -- specialize (Hrec h Hh'). rewrite Hid in Hrec. specialize (Hrec Heq). lia.
        -- done.
    + destruct (N.eqb_spec id (User._id v)); [congruence |].
      destruct (Hbal v Hv) as (Hnum' & Hpos' & Hsum' & Hrec').
      split; [done |]. split; [done |]. split.
      * intros Hle. rewrite Hsum' by lia. lia.
      * intros h [Hh' | ->%list_elem_of_singleton]%elem_of_app Heq;
          [by apply Hrec' | simpl in Heq; congruence].
  - assert (∀ k, k ∈ User._id <$> users w →
              ∃ v, v ∈ setPoints id (Number_add (User.points u) (randomPoints env))
                         (users w)
                   ∧ User._id v = k) as Hkeep.
    { intros k Hk.
      rewrite <- (setPoints_ids id (Number_add (User.points u) (randomPoints env)))
        in Hk.
      apply list_elem_of_fmap in Hk as (v & -> & Hv). eauto. }
    intros h [Hin' | Hin']%elem_of_app.
    + destruct (Hwf h Hin') as (Hr & v & Hv & Hvid). split; [done |].
      apply Hkeep. rewrite <- Hvid. by apply list_elem_of_fmap_2.
    + apply list_elem_of_singleton in Hin' as ->. simpl. split; [done |].
      apply Hkeep. rewrite <- Hid. by apply list_elem_of_fmap_2.
Qed.

Lemma handle_consistent r w :
  validEnv r → consistent w → consistent (snd (handle castObjectId r w)).
Proof.
  destruct r as [|body env|body env|fails|fails]; simpl; intros Hv Hc.
  - done.
  - by apply add_user_consistent.
  - by apply claim_points_consistent.
  - by rewrite rankings_world.
  - by rewrite latest_claim_history_world.
Qed.

Lemma reachable_consistent w : reachable castObjectId w → consistent w.
Proof.
  induction 1 as [|w r _ IH Hv]; [apply consistent_empty |].
  by apply handle_consistent.
Qed.

Lemma reachable_serve rs w :
  Forall validEnv rs → reachable castObjectId w →
  reachable castObjectId (serve castObjectId rs w).
Proof.
  unfold serve. revert w. induction rs as [|r rs IH]; simpl; [done |].
  intros w [Hr Hrs]%Forall_cons Hw. apply IH; [done |]. by constructor.
Qed.

(** What one request does to the two collections: nothing to the balances
    and the log, or one new record together with the binary64 addition of
    its award to its user's balance. *)
Lemma handle_step r w :
  validEnv r →
  let w' := snd (handle castObjectId r w) in
  (histories w' = histories w
   ∧ ∀ id u, findUser id (users w) = Some u → findUser id (users w') = Some u)
  ∨ (∃ h u,
       histories w' = histories w ++ [h]
       ∧ 1 ≤ History.points h ≤ 10
       ∧ findUser (History.userId h) (users w) = Some u
       ∧ findUser (History.userId h) (users w') =
           Some (User.mk (History.userId h) (User.name u)
                         (Number_add (User.points u) (History.points h)))
       ∧ ∀ id, id ≠ History.userId h →
               findUser id (users w') = findUser id (users w)).
Proof.
  destruct r as [|body env|body env|fails|fails]; simpl; intros Hv.
  - by left.
  - left. destruct (add_user_world body env w) as [-> | (name & Hfresh & ->)];
      [done |]. simpl. split; [done |].
    intros id u Hf. by rewrite findUser_app, Hf.
  - destruct (claim_points_world body env w)
      as [[Hu Hh] | (id & u & Hfind & Hu & Hh)].
    + left. by rewrite Hu, Hh.
    + right.
      destruct (findUser_Some _ _ _ Hfind) as [Hid _]. subst id.
      eexists _, u. rewrite Hu, Hh. simpl.
      split; [done |]. split; [by apply randomPoints_range |].
      split; [done |].
      split; [by apply findUser_setPoints_eq |].
      intros id' Hne. by apply findUser_setPoints_ne.
  - left. by rewrite rankings_world.
  - left. by rewrite latest_claim_history_world.
Qed.

(** C2, as amended: in every reachable state each history record belongs to
    a user whose balance is at least the record's award and, as long as the
    awards recorded for that user add up to at most [2 ^ 53], is exactly
    their sum; and a request either leaves the log and every balance as they
    were, or appends exactly one record and replaces the balance of its
    user, and of nobody else, by the binary64 sum of the balance and the
    record's award, which is never lower than the balance and is the exact
    sum while that is at most [2 ^ 53]. *)
Theorem history_matches_balances w :
  reachable castObjectId w →
  (∀ h, h ∈ histories w →
     ∃ u, findUser (History.userId h) (users w) = Some u
          ∧ History.points h ≤ User.points u
          ∧ (awarded (History.userId h) (histories w) ≤ 2 ^ 53 →
             User.points u = awarded (History.userId h) (histories w)))
  ∧ (∀ r, validEnv r →
       let w' := snd (handle castObjectId r w) in
       (histories w' = histories w
        ∧ ∀ id u, findUser id (users w) = Some u →
                  findUser id (users w') = Some u)
       ∨ (∃ h u,
            histories w' = histories w ++ [h]
            ∧ 1 ≤ History.points h ≤ 10
            ∧ findUser (History.userId h) (users w) = Some u
            ∧ findUser (History.userId h) (users w') =
                Some (User.mk (History.userId h) (User.name u)
                              (Number_add (User.points u) (History.points h)))
            ∧ User.points u ≤ Number_add (User.points u) (History.points h)
            ∧ (User.points u + History.points h ≤ 2 ^ 53 →
               Number_add (User.points u) (History.points h)
               = User.points u + History.points h)
            ∧ ∀ id, id ≠ History.userId h →
                    findUser id (users w') = findUser id (users w))).
Proof.
  intros Hreach.
  destruct (reachable_consistent _ Hreach) as [Hnd Hbal Hwf]. split.
  - intros h Hh. destruct (Hwf h Hh) as (_ & v & Hv & Hvid).
    destruct (findUser (History.userId h) (users w)) as [u|] eqn:Hfind.
    2:{ apply findUser_None in Hfind. destruct Hfind.
        rewrite <- Hvid. by apply list_elem_of_fmap_2. }
    destruct (findUser_Some _ _ _ Hfind) as [Hid Hin].
    destruct (Hbal u Hin) as (_ & _ & Hsum & Hrec).
    exists u. split; [done |]. rewrite Hid in Hsum. split; [by apply Hrec |]. done.
  - intros r Hv. destruct (handle_step r w Hv)
      as [? | (h & u & Hlog & Hr & Hf & Hf' & Hother)]; [by left |].
    right. exists h, u.
    destruct (findUser_Some _ _ _ Hf) as [_ Hin].
    destruct (Hbal u Hin) as (Hnum & Hpos & _ & _).
    destruct (Number_add_ge (User.points u) (History.points h)) as [Hge _];
      [done | done | change (2 ^ 53) with 9007199254740992; lia |].
    split; [done |]. split; [done |]. split; [done |]. split; [done |].
    split; [done |]. split; [| done].
    intros Hle. apply Number_add_exact. lia.
Qed.

End Reachable.

(** ** The read-only queries *)

#[global] Instance byPointsDesc_total : Total byPointsDesc.
Proof. intros u v. unfold byPointsDesc. lia. Qed.

#[global] Instance byPointsDesc_trans : Transitive byPointsDesc.
Proof. intros u v x. unfold byPointsDesc. lia. Qed.

#[global] Instance byTimestampDesc_total : Total byTimestampDesc.
Proof. intros u v. unfold byTimestampDesc. lia. Qed.

#[global] Instance byTimestampDesc_trans : Transitive byTimestampDesc.
Proof. intros u v x. unfold byTimestampDesc. lia. Qed.

Lemma StronglySorted_take {A} (R : relation A) n (l : list A) :
  StronglySorted R l → StronglySorted R (take n l).
Proof.
  intros H. rewrite <- (take_drop n l) in H.
  by apply StronglySorted_app_1_l in H.
Qed.

(** C8: the rankings query answers 200 with every user document, each once,
    arranged so that no document is followed by one with more points; users
    with points 5, 1, 9 come back in the order 9, 5, 1; and the query, failed
    or not, leaves the world as it was. *)
Theorem rankings_sorted_desc w :
  (∃ l, rankings false w = (Ok (mkResponse 200 (UsersJson l)), w)
        ∧ l ≡ₚ users w
        ∧ StronglySorted byPointsDesc l)
  ∧ (∀ fails, snd (rankings fails w) = w)
  ∧ (∀ i1 n1 i2 n2 i3 n3 hs ss,
       fst (rankings false
              (mkWorld [User.mk i1 n1 5; User.mk i2 n2 1; User.mk i3 n3 9] hs ss))
       = Ok (mkResponse 200
               (UsersJson [User.mk i3 n3 9; User.mk i1 n1 5; User.mk i2 n2 1]))).
Proof.
  split; [| split].
  - exists (merge_sort byPointsDesc (users w)). split; [done |].
    split; [apply merge_sort_Permutation | apply StronglySorted_merge_sort; apply _].
  - intros fails. apply rankings_world.
  - intros. reflexivity.
Qed.

Section HistoryQuery.

Variable castObjectId : JsValue → option ObjectId.

(** C9: in a reachable state the history query answers 200 with the first
    ten (or all, if fewer) of the history records arranged by timestamp,
    latest first, and each returned record carries the _id and the name that
    the referenced user's document holds now. *)
Theorem latest_claim_history_recent w :
  reachable castObjectId w →
  ∃ sorted hs,
    latest_claim_history false w =
      (Ok (mkResponse 200 (HistoryJson (populate (users w) <$> hs))), w)
    ∧ sorted ≡ₚ histories w
    ∧ StronglySorted byTimestampDesc sorted
    ∧ hs = take 10 sorted
    ∧ (length hs ≤ 10)%nat
    ∧ StronglySorted byTimestampDesc hs
    ∧ ∀ h, h ∈ hs →
        ∃ u, findUser (History.userId h) (users w) = Some u
             ∧ populate (users w) h =
                 mkPopulated (Some (History.userId h, User.name u))
                             (History.points h) (History.timestamp h).
Proof.
  intros Hreach.
  destruct (reachable_consistent _ _ Hreach) as [Hnd Hbal Hwf].
  set (sorted := merge_sort byTimestampDesc (histories w)).
  assert (StronglySorted byTimestampDesc sorted) as Hsorted
    by (apply StronglySorted_merge_sort; apply _).
  exists sorted, (take 10 sorted).
  split; [done |]. split; [apply merge_sort_Permutation |].
  split; [done |]. split; [done |].
  split; [rewrite length_take; lia |].
  split; [by apply StronglySorted_take |].
  intros h Hh.
  assert (h ∈ histories w) as Hin.
  { rewrite <- (merge_sort_Permutation byTimestampDesc (histories w)).
    by apply (subseteq_take 10). }
  destruct (Hwf h Hin) as (_ & v & Hv & Hvid).
  unfold populate.
  destruct (findUser (History.userId h) (users w)) as [u|] eqn:Hfind.
  2:{ apply findUser_None in Hfind. destruct Hfind.
      rewrite <- Hvid. by apply list_elem_of_fmap_2. }
  destruct (findUser_Some _ _ _ Hfind) as [Hid _].
  exists u. split; [done |]. simpl. by rewrite Hid.
Qed.

End HistoryQuery.

(** ** Claims served one after the other *)

Section SerialClaims.

Variable castObjectId : JsValue → option ObjectId.

Lemma serve_cons r rs w :
  serve castObjectId (r :: rs) w =
    serve castObjectId rs (snd (handle castObjectId r w)).
Proof. reflexivity. Qed.

Lemma claim_points_committed body env w id u :
  truthy (field "userId" body) = true →
  castObjectId (field "userId" body) = Some id →
  findUser id (users w) = Some u →
  noFault env →
  snd (claim_points castObjectId body env w) =
    mkWorld (setPoints id (Number_add (User.points u) (randomPoints env)) (users w))
            (histories w ++ [History.mk id (randomPoints env) (Date_now env)])
            (sessions w ++ [mkSession Committed [] true]).
Proof.
  intros Htruthy Hcast Hfind (Hf1 & Hf2 & Hf3 & Hf4).
  rewrite claim_points_eq. cbv zeta.
  rewrite Htruthy, Hcast, Hf1, Hfind, Hf2, Hf3, Hf4. simpl.
  by destruct (findUser_Some _ _ _ Hfind) as [-> _].
Qed.

(** Claims by one user, served in sequence with no storage fault: the
    awards are added to the balance one after the other, each by a binary64
    addition, and the log grows by one record per claim, in order. *)
Lemma claims_in_sequence body envs w id u :
  truthy (field "userId" body) = true →
  castObjectId (field "userId" body) = Some id →
  findUser id (users w) = Some u →
  Forall noFault envs →
  let w' := serve castObjectId (PostClaimPoints body <$> envs) w in
  findUser id (users w') =
    Some (User.mk id (User.name u)
                  (fold_left Number_add (randomPoints <$> envs) (User.points u)))
  ∧ histories w' =
      histories w
      ++ ((λ env, History.mk id (randomPoints env) (Date_now env)) <$> envs).
Proof.
  intros Htruthy Hcast. revert w u.
  induction envs as [|env envs IH]; intros w u Hfind Hok; cbv zeta.
  - csimpl. destruct (findUser_Some _ _ _ Hfind) as [<- _].
    rewrite app_nil_r. by destruct u.
  - apply Forall_cons in Hok as [Hok1 Hok].
    rewrite !fmap_cons, serve_cons. simpl handle.
    rewrite (claim_points_committed body env w id u) by done.
    set (w1 := mkWorld _ _ _).
    pose proof (findUser_setPoints_eq id
                  (Number_add (User.points u) (randomPoints env))
                  (users w) u Hfind) as Hfind'.
    destruct (IH w1 _ Hfind' Hok) as [Hbal Hlog].
    split.
    + rewrite Hbal. reflexivity.
    + rewrite Hlog. simpl. by rewrite <- app_assoc.
Qed.

(** Additions that stay within [2 ^ 53] are exact. *)
Lemma fold_Number_add_exact l b :
  0 ≤ b → Forall (λ a, 0 ≤ a) l → b + sumZ l ≤ 2 ^ 53 →
  fold_left Number_add l b = b + sumZ l.
Proof.
  unfold sumZ. revert b. induction l as [|a l IH]; intros b Hb Hl Hle; simpl.
  - lia.
  - apply Forall_cons in Hl as [Ha Hl]. simpl in Hle.
    assert (0 ≤ foldr Z.add 0 l).
    { clear -Hl. induction Hl; simpl; lia. }
    rewrite Number_add_exact by lia. rewrite IH by (try done; lia). lia.
Qed.

End SerialClaims.

(** ** The session on each path of POST /claim-points *)


(** C5: a claim for a well-formed userId that names no user is answered with
    404 after the transaction was aborted, and the session opened for it is
    still not ended when the handler returns. *)
Theorem claim_not_found_leaves_session_open :
  claim_points castHex24 bodyClaimNobody (envClaim d0_7 1) worldAda =
    (Ok (mkResponse 404 (Text "User not found")),
     opened worldAda (mkSession Aborted [] false)).
Proof. vm_compute. reflexivity. Qed.

(** ** Worked examples *)

Lemma validEnv_demo : Forall validEnv demoRequests.
Proof.
  unfold demoRequests.
  repeat (apply Forall_cons; split); try apply Forall_nil; simpl;
    try exact I; unfold inUnitInterval; simpl; lia.
Defined.

Lemma reachable_demo : reachable castHex24 worldDemo.
Proof.
  apply reachable_serve; [apply validEnv_demo | constructor].
Defined.


Lemma claim_success_awards_witness :
  ∃ id u award,
    1 ≤ award ≤ 10
    ∧ castHex24 (field "userId" bodyClaimAda) = Some id
    ∧ findUser id (users worldAda) = Some u
    ∧ findUser id (users worldClaimed) =
        Some (User.mk id (User.name u) (Number_add (User.points u) award))
    ∧ (Z.abs (User.points u + award) ≤ 2 ^ 53 →
       Number_add (User.points u) award = User.points u + award)
    ∧ histories worldClaimed =
        histories worldAda ++ [History.mk id award (Date_now (envClaim d0_7 1))]
    ∧ payload respClaimed =
        ClaimJson (User.mk id (User.name u) (Number_add (User.points u) award))
                  (pretty award +:+ " points awarded")
    ∧ ∀ id', id' ≠ id →
        findUser id' (users worldClaimed) = findUser id' (users worldAda).
Proof.
  apply (claim_success_awards castHex24 bodyClaimAda (envClaim d0_7 1)
           worldAda respClaimed worldClaimed).
  - unfold inUnitInterval. simpl. lia.
  - vm_compute. reflexivity.
  - reflexivity.
Defined.

Lemma history_matches_balances_witness :
  reachable castHex24 worldDemo
  ∧ ∀ h, h ∈ histories worldDemo →
      ∃ u, findUser (History.userId h) (users worldDemo) = Some u
           ∧ History.points h ≤ User.points u
           ∧ (awarded (History.userId h) (histories worldDemo) ≤ 2 ^ 53 →
              User.points u = awarded (History.userId h) (histories worldDemo)).
Proof.
  split; [exact reachable_demo |].
  exact (proj1 (history_matches_balances castHex24 worldDemo reachable_demo)).
Defined.

Lemma claim_unknown_user_witness :
  ∃ w' s,
    claim_points castHex24 bodyClaimNobody (envClaim d0_7 1) worldAda =
      (Ok (mkResponse 404 (Text "User not found")), w')
    ∧ sessions w' = sessions worldAda ++ [s]
    ∧ txn s = Aborted ∧ staged s = []
    ∧ histories w' = histories worldAda
    ∧ users w' = users worldAda.
Proof.
  apply (claim_unknown_user castHex24 bodyClaimNobody (envClaim d0_7 1)
           worldAda idNobody).
  - vm_compute. reflexivity.
  - vm_compute. reflexivity.
  - reflexivity.
  - vm_compute. reflexivity.
Defined.

Lemma claim_requires_userId_witness :
  claim_points castHex24 ∅ (envClaim d0_7 1) worldAda =
    (Ok (mkResponse 400 (Text "User ID is required")), worldAda)
  ∧ sessions (snd (claim_points castHex24 ∅ (envClaim d0_7 1) worldAda)) =
      sessions worldAda.
Proof.
  apply (claim_requires_userId castHex24 ∅ (envClaim d0_7 1) worldAda).
  left. reflexivity.
Defined.

Lemma add_user_validates_name_witness :
  add_user bodyBlankName envAddAda emptyWorld =
    (Ok (mkResponse 400 (Text "Name is required")), emptyWorld)
  ∧ ∃ newUser,
      add_user bodyAddAda envAddAda emptyWorld =
        (Ok (mkResponse 201 (UserJson newUser)),
         mkWorld (users emptyWorld ++ [newUser]) (histories emptyWorld)
                 (sessions emptyWorld))
      ∧ User.points newUser = 0
      ∧ User.name newUser = trim (js " Ada ")
      ∧ User._id newUser = newId envAddAda.
Proof.
  split.
  - apply (add_user_validates_name bodyBlankName envAddAda emptyWorld (js "  "));
      [reflexivity |].
    repeat constructor.
  - apply (add_user_validates_name bodyAddAda envAddAda emptyWorld (js " Ada "));
      [reflexivity | | reflexivity | reflexivity].
    intros Hws. apply Forall_cons_1 in Hws as [_ Hws].
    apply Forall_cons_1 in Hws as [HA _]. discriminate HA.
Defined.

Lemma add_user_missing_name_throws_witness :
  add_user ∅ envAddAda emptyWorld = (Throw TypeError, emptyWorld).
Proof.
  exact (proj1 (add_user_missing_name_throws ∅ envAddAda emptyWorld eq_refl)).
Defined.

Lemma latest_claim_history_recent_witness :
  ∃ sorted hs,
    latest_claim_history false worldDemo =
      (Ok (mkResponse 200 (HistoryJson (populate (users worldDemo) <$> hs))),
       worldDemo)
    ∧ sorted ≡ₚ histories worldDemo
    ∧ StronglySorted byTimestampDesc sorted
    ∧ hs = take 10 sorted
    ∧ (length hs ≤ 10)%nat
    ∧ StronglySorted byTimestampDesc hs
    ∧ ∀ h, h ∈ hs →
        ∃ u, findUser (History.userId h) (users worldDemo) = Some u
             ∧ populate (users worldDemo) h =
                 mkPopulated (Some (History.userId h, User.name u))
                             (History.points h) (History.timestamp h).
Proof.
  exact (latest_claim_history_recent castHex24 worldDemo reachable_demo).
Defined.

(** Three claims made at times 1 < 2 < 3 are listed latest first. *)
Example latest_claim_history_demo :
  fst (latest_claim_history false worldDemo) =
    Ok (mkResponse 200 (HistoryJson
          [ mkPopulated (Some (idAda, js "Ada")) 10 3;
            mkPopulated (Some (idAda, js "Ada")) 1 2;
            mkPopulated (Some (idAda, js "Ada")) 8 1 ])).
Proof. vm_compute. reflexivity. Qed.

(** After them Ada's balance is the sum of the three awards. *)
Example worldDemo_balance :
  User.points <$> findUser idAda (users worldDemo) = Some (8 + 1 + 10).
Proof. vm_compute. reflexivity. Qed.

(** ** Where the claims as first stated fail *)

(** C1: at a balance of [2 ^ 53] a claim that awards 1 is answered 200 and
    records the award, but the balance afterwards is not the balance before
    plus 1: the binary64 sum [2 ^ 53 + 1] is [2 ^ 53]. *)
Lemma claim_success_awards_counterexample :
  inUnitInterval (Math_random (envClaim d0_0 1))
  ∧ ∃ r w' u u',
      claim_points castHex24 bodyClaimAda (envClaim d0_0 1) worldBig = (Ok r, w')
      ∧ status r = 200
      ∧ findUser idAda (users worldBig) = Some u
      ∧ findUser idAda (users w') = Some u'
      ∧ histories w' = histories worldBig ++ [History.mk idAda 1 1]
      ∧ User.points u' ≠ User.points u + 1.
Proof.
  split; [unfold inUnitInterval; simpl; lia |].
  exists (mkResponse 200
            (ClaimJson (User.mk idAda (js "Ada") (2 ^ 53)) "1 points awarded")),
    (mkWorld [User.mk idAda (js "Ada") (2 ^ 53)] [History.mk idAda 1 1]
             [mkSession Committed [] true]),
    (User.mk idAda (js "Ada") (2 ^ 53)), (User.mk idAda (js "Ada") (2 ^ 53)).
  split; [vm_compute; reflexivity |]. split; [reflexivity |].
  split; [vm_compute; reflexivity |]. split; [vm_compute; reflexivity |].
  split; [reflexivity |]. simpl. lia.
Qed.

(** C3: the userId "abc" names no user, cannot be cast, and is answered with
    500, not 404; and an absent userId is answered with 400. *)
Lemma claim_unknown_user_counterexample :
  truthy (field "userId" bodyClaimMalformed) = true
  ∧ castHex24 (field "userId" bodyClaimMalformed) = None
  ∧ claim_points castHex24 bodyClaimMalformed (envClaim d0_7 1) worldAda =
      (Ok (mkResponse 500 (Text "Error claiming points")),
       opened worldAda (mkSession Aborted [] true))
  ∧ claim_points castHex24 ∅ (envClaim d0_7 1) worldAda =
      (Ok (mkResponse 400 (Text "User ID is required")), worldAda).
Proof. repeat split; vm_compute; reflexivity. Qed.

(** *** A reachable state with a balance of [2 ^ 53] *)

Lemma awarded_replicate id a t n :
  awarded id (replicate n (History.mk id a t)) = Z.of_nat n * a.
Proof.
  induction n as [|n IH]; [done |].
  rewrite Nat2Z.inj_succ. simpl replicate. simpl awarded.
  rewrite N.eqb_refl, IH. lia.
Qed.

Lemma sumZ_replicate a n : sumZ (replicate n a) = Z.of_nat n * a.
Proof.
  unfold sumZ. induction n as [|n IH]; [done |].
  rewrite Nat2Z.inj_succ. simpl. rewrite IH. lia.
Qed.

Lemma saturated_world n :
  Z.of_nat n * 8 ≤ 2 ^ 53 →
  reachable castHex24 (saturated n)
  ∧ findUser idAda (users (saturated n)) =
      Some (User.mk idAda (js "Ada") (Z.of_nat n * 8))
  ∧ histories (saturated n) = replicate n (History.mk idAda 8 1).
Proof.
  intros Hle. unfold saturated. split.
  { apply reachable_serve; [| constructor].
    apply Forall_cons. split; [exact I |]. apply Forall_replicate.
    unfold validEnv, inUnitInterval. simpl. lia. }
  rewrite serve_cons.
  change (snd (handle castHex24 (PostAddUser bodyAddAda envAddAda) emptyWorld))
    with worldAda.
  rewrite <- (fmap_replicate (PostClaimPoints bodyClaimAda)).
  assert (findUser idAda (users worldAda) = Some (User.mk idAda (js "Ada") 0))
    as Hfind by (vm_compute; reflexivity).
  destruct (claims_in_sequence castHex24 bodyClaimAda
              (replicate n (envClaim d0_7 1)) worldAda idAda _
              ltac:(vm_compute; reflexivity) ltac:(vm_compute; reflexivity) Hfind)
    as [Hbal Hlog].
  { apply Forall_replicate. repeat split. }
  rewrite Hbal, Hlog. rewrite !fmap_replicate.
  change (randomPoints (envClaim d0_7 1)) with 8.
  split; [| reflexivity].
  rewrite fold_Number_add_exact.
  - rewrite sumZ_replicate. reflexivity.
  - done.
  - apply Forall_replicate. lia.
  - rewrite sumZ_replicate. simpl User.points. lia.
Qed.

Lemma manyClaims_spec : Z.of_nat manyClaims * 8 = 2 ^ 53.
Proof.
  unfold manyClaims. rewrite Z2Nat.id by (apply Z.pow_nonneg; lia).
  reflexivity.
Qed.

(** A claim of 1 point in a state where Ada holds [2 ^ 53] points, all of
    them recorded. *)
Lemma one_more_claim w n :
  findUser idAda (users w) = Some (User.mk idAda (js "Ada") (2 ^ 53)) →
  histories w = replicate n (History.mk idAda 8 1) →
  Z.of_nat n * 8 = 2 ^ 53 →
  ∃ u h,
    findUser idAda (users w) = Some u
    ∧ histories (snd (handle castHex24 claimOne w)) = histories w ++ [h]
    ∧ History.userId h = idAda
    ∧ History.points h = 1
    ∧ findUser idAda (users (snd (handle castHex24 claimOne w))) = Some u
    ∧ User.points u < awarded idAda (histories (snd (handle castHex24 claimOne w))).
Proof.
  intros Hfind Hlog Hn.
  exists (User.mk idAda (js "Ada") (2 ^ 53)), (History.mk idAda 1 2).
  split; [exact Hfind |].
  unfold claimOne. simpl handle.
  rewrite (claim_points_committed castHex24 bodyClaimAda (envClaim d0_0 2)
             w idAda (User.mk idAda (js "Ada") (2 ^ 53)));
    [| vm_compute; reflexivity | vm_compute; reflexivity | exact Hfind
     | repeat split].
  simpl users. simpl histories.
  change (randomPoints (envClaim d0_0 2)) with 1.
  change (Number_add (User.points (User.mk idAda (js "Ada") (2 ^ 53))) 1)
    with (2 ^ 53).
  split; [reflexivity |]. split; [reflexivity |]. split; [reflexivity |].
  split; [exact (findUser_setPoints_eq idAda (2 ^ 53) _ _ Hfind) |].
  rewrite Hlog, awarded_app, awarded_replicate, Hn.
  simpl. lia.
Qed.

(** C2: after [2 ^ 50] claims of 8 points the balance is [2 ^ 53]; the next
    claim, of 1 point, is committed with its history record and leaves the
    balance where it was, so that the balance is then less than the sum of
    the awards recorded for the user. *)
Lemma history_matches_balances_counterexample :
  reachable castHex24 worldSaturated
  ∧ validEnv claimOne
  ∧ ∃ u h,
      findUser idAda (users worldSaturated) = Some u
      ∧ histories (snd (handle castHex24 claimOne worldSaturated)) =
          histories worldSaturated ++ [h]
      ∧ History.userId h = idAda
      ∧ History.points h = 1
      ∧ findUser idAda (users (snd (handle castHex24 claimOne worldSaturated))) =
          Some u
      ∧ User.points u
        < awarded idAda (histories (snd (handle castHex24 claimOne worldSaturated))).
Proof.
  pose proof manyClaims_spec as Hn.
  destruct (saturated_world manyClaims) as (Hreach & Hfind & Hlog).
  { rewrite Hn. lia. }
  rewrite Hn in Hfind.
  split; [exact Hreach |].
  split; [unfold claimOne, validEnv, inUnitInterval; simpl; lia |].
  exact (one_more_claim worldSaturated manyClaims Hfind Hlog Hn).
Qed.

(** * Further properties of the handlers *)

(** ** [name.trim()] *)

Lemma trimStart_split (s : JsStr) :
  ∃ pre, s = pre ++ trimStart s ∧ Forall (λ c, isWhiteSpace c = true) pre.
Proof.
  induction s as [|c s (pre & Hs & Hpre)]; simpl.
  - by exists [].
  - destruct (isWhiteSpace c) eqn:Hc.
    + exists (c :: pre). split; [by rewrite <- app_comm_cons, <- Hs | by constructor].
    + by exists [].
Qed.

Lemma trimStart_head (s : JsStr) c :
  head (trimStart s) = Some c → isWhiteSpace c = false.
Proof.
  induction s as [|d s IH]; simpl; [done |].
  destruct (isWhiteSpace d) eqn:Hd; [done |]. simpl. congruence.
Qed.

Lemma trimEnd_split (t : JsStr) :
  ∃ post, t = trimEnd t ++ post ∧ Forall (λ c, isWhiteSpace c = true) post.
Proof.
  destruct (trimStart_split (reverse t)) as (pre & Ht & Hpre).
  exists (reverse pre). split; [| by apply Forall_reverse].
  unfold trimEnd. rewrite <- reverse_app, <- Ht. by rewrite reverse_involutive.
Qed.

Lemma trimEnd_last (t : JsStr) c :
  last (trimEnd t) = Some c → isWhiteSpace c = false.
Proof. unfold trimEnd. rewrite last_reverse. apply trimStart_head. Qed.

Lemma trim_head (s : JsStr) c :
  head (trim s) = Some c → isWhiteSpace c = false.
Proof.
  unfold trim. intros Hc. apply (trimStart_head s).
  destruct (trimEnd_split (trimStart s)) as (post & Ht & _). rewrite Ht.
  destruct (trimEnd (trimStart s)); [done | exact Hc].
Qed.

Lemma trim_clean (s : JsStr) : trim s ≠ [] → cleanName (trim s).
Proof.
  intros Hne. split; [done |]. split; [apply trim_head | apply trimEnd_last].
Qed.

(** X3: [trim] removes a run of white space from each end and nothing else:
    the string is [pre ++ trim s ++ post] with [pre] and [post] all white
    space, and what is kept neither starts nor ends with white space. *)
Theorem trim_spec (s : JsStr) :
  ∃ pre post,
    s = pre ++ trim s ++ post
    ∧ Forall (λ c, isWhiteSpace c = true) pre
    ∧ Forall (λ c, isWhiteSpace c = true) post
    ∧ (∀ c, head (trim s) = Some c → isWhiteSpace c = false)
    ∧ (∀ c, last (trim s) = Some c → isWhiteSpace c = false).
Proof.
  destruct (trimStart_split s) as (pre & Hs & Hpre).
  destruct (trimEnd_split (trimStart s)) as (post & Ht & Hpost).
  exists pre, post.
  split; [unfold trim; by rewrite <- Ht |]. split; [done |]. split; [done |].
  split; [apply trim_head | apply trimEnd_last].
Qed.

(** ** POST /add-user: every path *)

Lemma add_user_cases body env w :
  (add_user body env w = (Throw TypeError, w)
   ∧ ∀ s, body !! "name" ≠ Some (JsString s))
  ∨ (∃ s, body !! "name" = Some (JsString s) ∧ trim s = []
        ∧ add_user body env w = (Ok (mkResponse 400 (Text "Name is required")), w))
  ∨ (∃ s, body !! "name" = Some (JsString s) ∧ trim s ≠ []
        ∧ (insertFails env = true ∨ is_Some (findUser (newId env) (users w)))
        ∧ add_user body env w = (Ok (mkResponse 500 (Text "Error adding user")), w))
  ∨ (∃ s, body !! "name" = Some (JsString s) ∧ trim s ≠ []
        ∧ insertFails env = false ∧ findUser (newId env) (users w) = None
        ∧ add_user body env w =
            (Ok (mkResponse 201 (UserJson (User.mk (newId env) (trim s) 0))),
             mkWorld (users w ++ [User.mk (newId env) (trim s) 0])
                     (histories w) (sessions w))).
Proof.
  destruct (body !! "name") as [[| |b|q|s|]|] eqn:E;
    try (left; split; [apply add_user_not_string |]; intros s'; rewrite ?E; done).
  right. rewrite (add_user_string _ _ _ _ E).
  destruct (trim s) as [|c t] eqn:Ht; [left; by exists s |].
  right. destruct (insertFails env) eqn:Hf.
  { left. exists s. rewrite Ht. repeat split; auto. }
  destruct (findUser (newId env) (users w)) eqn:Hfind.
  { left. exists s. rewrite Ht. repeat split; eauto. }
  right. exists s. by rewrite Ht.
Qed.

(** X1: when the name is acceptable but the insert fails, by a storage fault
    or because the generated _id is already in the collection, the handler
    answers 500 and creates no user. *)
Theorem add_user_storage_failure body env w s :
  body !! "name" = Some (JsString s) →
  trim s ≠ [] →
  insertFails env = true ∨ is_Some (findUser (newId env) (users w)) →
  add_user body env w = (Ok (mkResponse 500 (Text "Error adding user")), w).
Proof.
  intros Hname Hne Hfail. rewrite (add_user_string _ _ _ _ Hname).
  destruct (trim s) as [|c t]; [done |].
  destruct Hfail as [-> | [u ->]]; [done |].
  by destruct (insertFails env).
Qed.

(** X2: whatever the request, add-user leaves the history log, the sessions
    and every stored user as they were; it adds at most one document, at the
    end, with the generated _id, an unused one, and 0 points. *)
Theorem add_user_keeps_existing body env w :
  histories (snd (add_user body env w)) = histories w
  ∧ sessions (snd (add_user body env w)) = sessions w
  ∧ (users (snd (add_user body env w)) = users w
     ∨ ∃ u, users (snd (add_user body env w)) = users w ++ [u]
            ∧ User._id u = newId env ∧ User.points u = 0
            ∧ findUser (newId env) (users w) = None)
  ∧ ∀ id u, findUser id (users w) = Some u →
            findUser id (users (snd (add_user body env w))) = Some u.
Proof.
  destruct (add_user_cases body env w)
    as [[-> _] | [(s & _ & _ & ->) | [(s & _ & _ & _ & ->) | (s & _ & _ & _ & Hfresh & ->)]]];
    simpl; try (repeat split; auto; done).
  split; [done |]. split; [done |]. split.
  - right. by eexists.
  - intros id u Hf. by rewrite findUser_app, Hf.
Qed.

(** ** POST /claim-points: the failure paths *)

Lemma setPoints_id_name id p us :
  (λ u, (User._id u, User.name u)) <$> setPoints id p us =
  (λ u, (User._id u, User.name u)) <$> us.
Proof.
  induction us as [|v us IH]; csimpl; [done |].
  destruct (User._id v =? id)%N; csimpl; [done | by rewrite IH].
Qed.

Lemma elem_of_setPoints id p us u' :
  u' ∈ setPoints id p us →
  u' ∈ us ∨ ∃ u, findUser id us = Some u
                 ∧ u' = User.mk (User._id u) (User.name u) p.
Proof.
  unfold findUser. induction us as [|v us IH]; simpl; [by left |].
  destruct (User._id v =? id)%N.
  - intros [-> | Hin]%elem_of_cons; [right; by exists v | left; by right].
  - intros [-> | Hin]%elem_of_cons; [left; by left |].
    destruct (IH Hin) as [? | ?]; [left; by right | by right].
Qed.

Section ClaimPaths.

Variable castObjectId : JsValue → option ObjectId.

(** X8: when the userId is accepted and a storage call ahead of the commit
    fails (the lookup, or for an existing user the balance update or the
    history insert), the handler answers 500, the transaction is aborted
    with nothing staged, the session is ended, and neither collection
    changes. *)
Theorem claim_storage_fault body env w id :
  truthy (field "userId" body) = true →
  castObjectId (field "userId" body) = Some id →
  findFails env = true
  ∨ (is_Some (findUser id (users w))
     ∧ (saveUserFails env = true ∨ saveHistoryFails env = true)) →
  claim_points castObjectId body env w =
    (Ok (mkResponse 500 (Text "Error claiming points")),
     opened w (mkSession Aborted [] true)).
Proof.
  intros Htruthy Hcast Hfail. rewrite claim_points_eq. cbv zeta.
  rewrite Htruthy, Hcast.
  destruct (findFails env); [done |].
  destruct Hfail as [? | [[u ->] Hfail]]; [done |].
  destruct (saveUserFails env); [done |].
  destruct (saveHistoryFails env); [done |].
  by destruct Hfail as [? | ?].
Qed.

(** X9: a userId that is present but that Mongoose cannot cast to an
    ObjectId is answered with 500, not 404: the cast error is thrown inside
    the try, so the transaction is aborted and the session ended. *)
Theorem claim_malformed_userId body env w :
  truthy (field "userId" body) = true →
  castObjectId (field "userId" body) = None →
  claim_points castObjectId body env w =
    (Ok (mkResponse 500 (Text "Error claiming points")),
     opened w (mkSession Aborted [] true)).
Proof.
  intros Htruthy Hcast. rewrite claim_points_eq. cbv zeta.
  by rewrite Htruthy, Hcast.
Qed.

(** X19: a claim never adds, removes, reorders or renames a user: the _ids
    and names of the collection are the same after it, whatever the
    outcome. *)
Theorem claim_keeps_users body env w :
  (λ u, (User._id u, User.name u))
    <$> users (snd (claim_points castObjectId body env w))
  = (λ u, (User._id u, User.name u)) <$> users w.
Proof.
  rewrite claim_points_eq. cbv zeta.
  destruct (truthy (field "userId" body)); [| done].
  destruct (castObjectId (field "userId" body)) as [id|]; [| done].
  destruct (findFails env); [done |].
  destruct (findUser id (users w)) as [u|]; [| done].
  destruct (saveUserFails env); [done |].
  destruct (saveHistoryFails env); [done |].
  destruct (commitFails env); [done |].
  simpl. apply setPoints_id_name.
Qed.


End ClaimPaths.

(** ** Invariants of the reachable states *)

Lemma sumZ_app l k : sumZ (l ++ k) = sumZ l + sumZ k.
Proof. unfold sumZ. induction l as [|x l IH]; simpl; lia. Qed.

Lemma sumZ_setPoints id p us u :
  findUser id us = Some u →
  sumZ (User.points <$> setPoints id p us) =
    sumZ (User.points <$> us) - User.points u + p.
Proof.
  unfold findUser, sumZ. induction us as [|v us IH]; csimpl; [done |].
  destruct (User._id v =? id)%N; csimpl.
  - intros [= ->]. lia.
  - intros Hf. rewrite (IH Hf). lia.
Qed.

Lemma sumZ_elem_le l x : Forall (λ y, 0 ≤ y) l → x ∈ l → x ≤ sumZ l.
Proof.
  unfold sumZ. induction 1 as [|y l Hy Hl IH]; [by inversion 1 |].
  assert (0 ≤ foldr Z.add 0 l) by (clear -Hl; induction Hl; simpl; lia).
  intros [-> | Hx]%elem_of_cons; simpl; [lia |]. specialize (IH Hx). lia.
Qed.

Section Invariants.

Variable castObjectId : JsValue → option ObjectId.

(** X4: in every reachable state each user has a name that is not empty and
    has no white space at either end, and a balance that is not negative. *)
Theorem reachable_users_wellformed w :
  reachable castObjectId w →
  ∀ u, u ∈ users w → cleanName (User.name u) ∧ 0 ≤ User.points u.
Proof.
  induction 1 as [|w r _ IH Hv]; [by inversion 1 |].
  destruct r as [|body env|body env|fails|fails]; simpl.
  - done.
  - destruct (add_user_cases body env w)
      as [[-> _] | [(s & _ & _ & ->) | [(s & _ & _ & _ & ->) | (s & _ & Hne & _ & _ & ->)]]];
      try done.
    simpl. intros u [Hu | ->%list_elem_of_singleton]%elem_of_app; [auto |].
    simpl. split; [by apply trim_clean | done].
  - destruct (claim_points_world castObjectId body env w)
      as [[-> _] | (id & u0 & Hfind & -> & _)]; [done |].
    intros u' Hu'. apply elem_of_setPoints in Hu' as [Hu' | (u1 & Hf1 & ->)]; [auto |].
    rewrite Hfind in Hf1. injection Hf1 as <-.
    destruct (findUser_Some _ _ _ Hfind) as [_ Hin].
    destruct (IH u0 Hin) as [Hname Hpts].
    pose proof (randomPoints_range env Hv). simpl. split; [done |].
    apply roundNumber_nonneg. lia.
  - by rewrite rankings_world.
  - by rewrite latest_claim_history_world.
Qed.

(** X12: in every reachable state in which the awards of all history records
    add up to at most [2 ^ 53], the balances of all users add up to exactly
    that total. *)
Theorem reachable_points_conserved w :
  reachable castObjectId w →
  totalAwards w ≤ 2 ^ 53 →
  totalPoints w = totalAwards w.
Proof.
  unfold totalPoints, totalAwards.
  induction 1 as [|w r Hreach IH Hv]; [done |].
  destruct r as [|body env|body env|fails|fails]; simpl.
  - done.
  - destruct (add_user_world body env w) as [-> | (name & _ & ->)]; [done |].
    simpl. intros Hle. rewrite fmap_app, sumZ_app, IH by done.
    unfold sumZ. csimpl. lia.
  - destruct (claim_points_world castObjectId body env w)
      as [[-> ->] | (id & u0 & Hfind & -> & ->)]; [done |].
    pose proof (randomPoints_range env Hv) as Hrange.
    rewrite (sumZ_setPoints _ _ _ _ Hfind), !fmap_app, !sumZ_app.
    unfold sumZ at 2 4. csimpl. intros Hle. rewrite IH by lia.
    destruct (reachable_consistent _ _ Hreach) as [_ Hbal _].
    destruct (findUser_Some _ _ _ Hfind) as [_ Hin].
    assert (User.points u0 ≤ sumZ (User.points <$> users w)) as Hu0.
    { apply sumZ_elem_le; [| by apply list_elem_of_fmap_2].
      apply Forall_fmap, Forall_forall. intros v Hv'.
      by destruct (Hbal v Hv') as (_ & ? & _). }
    destruct (Hbal u0 Hin) as (_ & Hpos & _).
    rewrite IH in Hu0 by lia. rewrite Number_add_exact by lia.
    unfold sumZ in *. lia.
  - by rewrite rankings_world.
  - by rewrite latest_claim_history_world.
Qed.


(** X20: in every reachable state no two users share an _id, and looking a
    stored user up by its own _id returns that very document. *)
Theorem reachable_ids_unique w :
  reachable castObjectId w →
  NoDup (User._id <$> users w)
  ∧ ∀ u, u ∈ users w → findUser (User._id u) (users w) = Some u.
Proof.
  intros Hreach. destruct (reachable_consistent _ _ Hreach) as [Hnd _ _].
  split; [done |]. revert Hnd. generalize (users w). clear.
  intros us. unfold findUser.
  induction us as [|v us IH]; csimpl; [by inversion 2 |].
  rewrite NoDup_cons. intros [Hv Hnd] u [-> | Hu]%elem_of_cons.
  - by rewrite N.eqb_refl.
  - destruct (N.eqb_spec (User._id v) (User._id u)) as [E|E]; [| by apply IH].
    destruct Hv. rewrite E. by apply list_elem_of_fmap_2.
Qed.

(** X21: in every reachable state every history record holds an award
    between 1 and 10 and names a user that is in the collection. *)
Theorem reachable_history_wellformed w :
  reachable castObjectId w →
  ∀ h, h ∈ histories w →
    1 ≤ History.points h ≤ 10
    ∧ is_Some (findUser (History.userId h) (users w)).
Proof.
  intros Hreach h Hh. destruct (reachable_consistent _ _ Hreach) as [_ _ Hwf].
  destruct (Hwf h Hh) as (Hr & v & Hv & Hvid). split; [done |].
  destruct (findUser (History.userId h) (users w)) eqn:Hfind; [done |].
  apply findUser_None in Hfind. destruct Hfind.
  rewrite <- Hvid. by apply list_elem_of_fmap_2.
Qed.

(** X11: from a reachable state, one request never rewrites or drops history
    and never lowers a balance: the log afterwards extends the log before by
    at most one record, and every user found before is found afterwards
    with the same name and a balance that is not lower, and that grew by at
    most 10 if the balance plus 10 is at most [2 ^ 53]. *)
Theorem handle_append_only r w :
  reachable castObjectId w →
  validEnv r →
  histories w `prefix_of` histories (snd (handle castObjectId r w))
  ∧ (length (histories (snd (handle castObjectId r w)))
       ≤ length (histories w) + 1)%nat
  ∧ ∀ id u, findUser id (users w) = Some u →
      ∃ u', findUser id (users (snd (handle castObjectId r w))) = Some u'
            ∧ User.name u' = User.name u
            ∧ User.points u ≤ User.points u'
            ∧ (User.points u + 10 ≤ 2 ^ 53 →
               User.points u' ≤ User.points u + 10).
Proof.
  intros Hreach Hv.
  destruct (reachable_consistent _ _ Hreach) as [_ Hbal _].
  destruct (handle_step castObjectId r w Hv)
    as [[-> Hkeep] | (h & u0 & -> & Hr & Hf & Hf' & Hother)].
  - split; [done |]. split; [lia |].
    intros id u Hu. exists u. rewrite (Hkeep _ _ Hu).
    split; [done |]. split; [done |]. split; lia.
  - split; [by apply prefix_app_r |]. split; [rewrite length_app; simpl; lia |].
    intros id u Hu. destruct (decide (id = History.userId h)) as [-> | Hne].
    + rewrite Hf in Hu. injection Hu as ->. eexists. split; [exact Hf' |].
      simpl. split; [done |].
      destruct (findUser_Some _ _ _ Hf) as [_ Hin].
      destruct (Hbal u Hin) as (Hnum & Hpos & _).
      destruct (Number_add_ge (User.points u) (History.points h)) as [Hge _];
        [done | done | change (2 ^ 53) with 9007199254740992; lia |].
      split; [done |]. intros Hle. rewrite Number_add_exact by lia. lia.
    + exists u. rewrite (Hother _ Hne), Hu.
      split; [done |]. split; [done |]. split; lia.
Qed.

End Invariants.

(** ** Registration, then claims *)

Section Composition.

Variable castObjectId : JsValue → option ObjectId.

(** X5: a user that add-user has just created (201) can claim at once: a
    claim whose userId casts to the new user's _id, with no storage fault,
    is answered 200, the user's balance becomes the award, and the log gains
    the one record of it. *)
Theorem registered_user_can_claim body env w newUser w1 body' cenv :
  add_user body env w = (Ok (mkResponse 201 (UserJson newUser)), w1) →
  truthy (field "userId" body') = true →
  castObjectId (field "userId" body') = Some (User._id newUser) →
  noFault cenv →
  ∃ w2,
    claim_points castObjectId body' cenv w1 =
      (Ok (mkResponse 200
             (ClaimJson (User.mk (User._id newUser) (User.name newUser)
                                 (randomPoints cenv))
                        (pretty (randomPoints cenv) +:+ " points awarded"))),
       w2)
    ∧ findUser (User._id newUser) (users w2) =
        Some (User.mk (User._id newUser) (User.name newUser) (randomPoints cenv))
    ∧ histories w2 =
        histories w ++ [History.mk (User._id newUser) (randomPoints cenv)
                                   (Date_now cenv)].
Proof.
  intros Hadd Htruthy Hcast (Hf1 & Hf2 & Hf3 & Hf4).
  destruct (add_user_cases body env w)
    as [[Hrun _] | [(s & _ & _ & Hrun) | [(s & _ & _ & _ & Hrun) | (s & _ & _ & _ & Hfresh & Hrun)]]];
    rewrite Hrun in Hadd; try done.
  injection Hadd as <- <-. simpl in *.
  set (newUser := User.mk (newId env) (trim s) 0).
  assert (findUser (newId env) (users w ++ [newUser]) = Some newUser) as Hfind.
  { rewrite findUser_app, Hfresh. unfold findUser. simpl. by rewrite N.eqb_refl. }
  rewrite claim_points_eq. cbv zeta.
  rewrite Htruthy, Hcast. simpl users. rewrite Hf1, Hfind, Hf2, Hf3, Hf4.
  unfold awardedUser. simpl.
  rewrite (Number_add_zero_l _ (randomPoints_isNumber cenv)).
  eexists. split; [reflexivity |]. simpl. split; [| done].
  rewrite (findUser_setPoints_eq _ _ _ _ Hfind). done.
Qed.


(** X15: whenever a route answers, it is with one of its own statuses: GET /
    with 200; add-user with 201, 400 or 500; claim-points with 200, 400, 404
    or 500; each of the two queries with 200 or 500. *)
Theorem handle_status_codes r w resp w' :
  handle castObjectId r w = (Ok resp, w') →
  match r with
  | GetRoot => status resp = 200
  | PostAddUser _ _ =>
      status resp = 201 ∨ status resp = 400 ∨ status resp = 500
  | PostClaimPoints _ _ =>
      status resp = 200 ∨ status resp = 400 ∨ status resp = 404
      ∨ status resp = 500
  | GetRankings _ | GetLatestClaimHistory _ =>
      status resp = 200 ∨ status resp = 500
  end.
Proof.
  destruct r as [|body env|body env|fails|fails]; simpl.
  - by intros [= <- _].
  - destruct (add_user_cases body env w)
      as [[Hrun Hns] | [(s & _ & _ & Hrun) | [(s & _ & _ & _ & Hrun) | (s & _ & _ & _ & _ & Hrun)]]];
      rewrite Hrun; intros [= <- _]; simpl; auto.
  - rewrite claim_points_eq. cbv zeta.
    destruct (truthy (field "userId" body)); [| intros [= <- _]; simpl; auto].
    destruct (castObjectId (field "userId" body)) as [id|];
      [| intros [= <- _]; simpl; auto].
    destruct (findFails env); [intros [= <- _]; simpl; auto |].
    destruct (findUser id (users w)) as [u|]; [| intros [= <- _]; simpl; auto].
    destruct (saveUserFails env); [intros [= <- _]; simpl; auto |].
    destruct (saveHistoryFails env); [intros [= <- _]; simpl; auto |].
    destruct (commitFails env); [done |]. intros [= <- _]; simpl; auto.
  - destruct fails; intros [= <- _]; simpl; auto.
  - destruct fails; intros [= <- _]; simpl; auto.
Qed.

End Composition.

(** ** The queries, further *)


(** X16: the history query returns the ten latest records, or all of them
    when there are fewer: what it returns and what it leaves out make up the
    log, and nothing left out is later than anything returned. *)
Theorem latest_claim_history_most_recent w :
  ∃ hs rest,
    latest_claim_history false w =
      (Ok (mkResponse 200 (HistoryJson (populate (users w) <$> hs))), w)
    ∧ hs ++ rest ≡ₚ histories w
    ∧ length hs = (10 `min` length (histories w))%nat
    ∧ ∀ h k, h ∈ hs → k ∈ rest →
        History.timestamp k ≤ History.timestamp h.
Proof.
  set (sorted := merge_sort byTimestampDesc (histories w)).
  exists (take 10 sorted), (drop 10 sorted).
  split; [done |].
  split; [rewrite take_drop; apply merge_sort_Permutation |].
  split.
  { rewrite length_take. unfold sorted.
    by rewrite (merge_sort_Permutation byTimestampDesc (histories w)). }
  intros h k Hh Hk.
  assert (StronglySorted byTimestampDesc (take 10 sorted ++ drop 10 sorted)) as Hs.
  { rewrite take_drop. apply StronglySorted_merge_sort; apply _. }
  exact (StronglySorted_app_1_elem_of _ _ _ _ _ Hs Hh Hk).
Qed.

(** ** The award, further *)

(** X17: the bounds 1 and 10 of the award are both attained, and so is every
    value in between: for each [n] from 1 to 10 the double just above
    [(n - 1) / 10] is a possible value of [Math.random()] and gives the
    award [n]. *)
Theorem award_attains_each_value n :
  1 ≤ n ≤ 10 →
  inUnitInterval (drawFor n) ∧ randomPoints (envClaim (drawFor n) 0) = n.
Proof.
  intros Hn.
  assert (n = 1 ∨ n = 2 ∨ n = 3 ∨ n = 4 ∨ n = 5 ∨ n = 6 ∨ n = 7 ∨ n = 8
          ∨ n = 9 ∨ n = 10) as Hcases by lia.
  repeat destruct Hcases as [-> | Hcases]; try subst n;
    (split; [| vm_compute; reflexivity]);
    unfold inUnitInterval, drawFor; cbn [mantissa exponent];
    change (2 ^ 53) with 9007199254740992; Z.div_mod_to_equations; lia.
Qed.

(** ** Worked examples of the further properties *)

Lemma add_user_storage_failure_witness :
  add_user bodyAddAda envAddAda worldAda =
    (Ok (mkResponse 500 (Text "Error adding user")), worldAda).
Proof.
  apply (add_user_storage_failure bodyAddAda envAddAda worldAda (js " Ada ")).
  - reflexivity.
  - vm_compute. discriminate.
  - right. exists (User.mk idAda (js "Ada") 0). vm_compute. reflexivity.
Defined.

Lemma reachable_users_wellformed_witness :
  reachable castHex24 worldDemo
  ∧ ∀ u, u ∈ users worldDemo → cleanName (User.name u) ∧ 0 ≤ User.points u.
Proof.
  split; [exact reachable_demo |].
  exact (reachable_users_wellformed castHex24 worldDemo reachable_demo).
Defined.

Lemma registered_user_can_claim_witness :
  ∃ w2,
    claim_points castHex24 bodyClaimAda (envClaim d0_7 1) worldAda =
      (Ok (mkResponse 200
             (ClaimJson (User.mk idAda (js "Ada") (randomPoints (envClaim d0_7 1)))
                        (pretty (randomPoints (envClaim d0_7 1))
                         +:+ " points awarded"))),
       w2)
    ∧ findUser idAda (users w2) =
        Some (User.mk idAda (js "Ada") (randomPoints (envClaim d0_7 1)))
    ∧ histories w2 =
        histories emptyWorld
        ++ [History.mk idAda (randomPoints (envClaim d0_7 1))
                       (Date_now (envClaim d0_7 1))].
Proof.
  apply (registered_user_can_claim castHex24 bodyAddAda envAddAda emptyWorld
           (User.mk idAda (js "Ada") 0) worldAda bodyClaimAda (envClaim d0_7 1)).
  - vm_compute. reflexivity.
  - vm_compute. reflexivity.
  - vm_compute. reflexivity.
  - repeat split.
Defined.

Lemma claim_falsy_userId_witness :
  claim_points castHex24 bodyClaimZero (envClaim d0_7 1) worldAda =
    (Ok (mkResponse 400 (Text "User ID is required")), worldAda).
Proof.
  apply (claim_falsy_userId castHex24 bodyClaimZero (envClaim d0_7 1) worldAda).
  vm_compute. reflexivity.
Defined.

Lemma claim_failure_no_effect_witness :
  users (opened worldAda (mkSession Aborted [] true)) = users worldAda
  ∧ histories (opened worldAda (mkSession Aborted [] true)) = histories worldAda.
Proof.
  apply (claim_failure_no_effect castHex24 bodyClaimAda envInsertFails worldAda
           (mkResponse 500 (Text "Error claiming points"))).
  - vm_compute. reflexivity.
  - simpl. lia.
Defined.

Lemma claim_storage_fault_witness :
  claim_points castHex24 bodyClaimAda envInsertFails worldAda =
    (Ok (mkResponse 500 (Text "Error claiming points")),
     opened worldAda (mkSession Aborted [] true)).
Proof.
  apply (claim_storage_fault castHex24 bodyClaimAda envInsertFails worldAda idAda).
  - vm_compute. reflexivity.
  - vm_compute. reflexivity.
  - right. split; [| right; reflexivity].
    exists (User.mk idAda (js "Ada") 0). vm_compute. reflexivity.
Defined.

Lemma claim_malformed_userId_witness :
  claim_points castHex24 bodyClaimMalformed (envClaim d0_7 1) worldAda =
    (Ok (mkResponse 500 (Text "Error claiming points")),
     opened worldAda (mkSession Aborted [] true)).
Proof.
  apply (claim_malformed_userId castHex24 bodyClaimMalformed (envClaim d0_7 1)
           worldAda).
  - vm_compute. reflexivity.
  - vm_compute. reflexivity.
Defined.


Lemma handle_append_only_witness :
  reachable castHex24 worldDemo
  ∧ histories worldDemo
      `prefix_of` histories (snd (handle castHex24
                                    (PostClaimPoints bodyClaimAda (envClaim d0_7 4))
                                    worldDemo))
  ∧ (length (histories (snd (handle castHex24
                               (PostClaimPoints bodyClaimAda (envClaim d0_7 4))
                               worldDemo)))
       ≤ length (histories worldDemo) + 1)%nat
  ∧ ∀ id u, findUser id (users worldDemo) = Some u →
      ∃ u', findUser id (users (snd (handle castHex24
                                       (PostClaimPoints bodyClaimAda (envClaim d0_7 4))
                                       worldDemo))) = Some u'
            ∧ User.name u' = User.name u
            ∧ User.points u ≤ User.points u'
            ∧ (User.points u + 10 ≤ 2 ^ 53 →
               User.points u' ≤ User.points u + 10).
Proof.
  split; [exact reachable_demo |].
  apply (handle_append_only castHex24
           (PostClaimPoints bodyClaimAda (envClaim d0_7 4)) worldDemo).
  - exact reachable_demo.
  - unfold validEnv, inUnitInterval. simpl. lia.
Defined.

Lemma reachable_points_conserved_witness :
  reachable castHex24 worldDemo
  ∧ totalAwards worldDemo ≤ 2 ^ 53
  ∧ totalPoints worldDemo = totalAwards worldDemo.
Proof.
  split; [exact reachable_demo |].
  assert (totalAwards worldDemo ≤ 2 ^ 53) as Hle by (vm_compute; discriminate).
  split; [exact Hle |].
  exact (reachable_points_conserved castHex24 worldDemo reachable_demo Hle).
Defined.


Lemma reachable_ids_unique_witness :
  reachable castHex24 worldDemo
  ∧ NoDup (User._id <$> users worldDemo)
  ∧ ∀ u, u ∈ users worldDemo → findUser (User._id u) (users worldDemo) = Some u.
Proof.
  split; [exact reachable_demo |].
  exact (reachable_ids_unique castHex24 worldDemo reachable_demo).
Defined.

Lemma reachable_history_wellformed_witness :
  reachable castHex24 worldDemo
  ∧ ∀ h, h ∈ histories worldDemo →
      1 ≤ History.points h ≤ 10
      ∧ is_Some (findUser (History.userId h) (users worldDemo)).
Proof.
  split; [exact reachable_demo |].
  exact (reachable_history_wellformed castHex24 worldDemo reachable_demo).
Defined.

Lemma award_attains_each_value_witness :
  inUnitInterval (drawFor 10) ∧ randomPoints (envClaim (drawFor 10) 0) = 10.
Proof. apply (award_attains_each_value 10). lia. Defined.


Lemma handle_status_codes_witness :
  status respClaimed = 200 ∨ status respClaimed = 400
  ∨ status respClaimed = 404 ∨ status respClaimed = 500.
Proof.
  apply (handle_status_codes castHex24
           (PostClaimPoints bodyClaimAda (envClaim d0_7 1)) worldAda
           respClaimed worldClaimed).
  vm_compute. reflexivity.
Defined.
